(** * BSB-Compute: the dispatch loop of [src/main.py]

    A shallow embedding of [executar_politica] and of the state it owns:
    the pending task list, the per-server state dictionary, the completion
    records, the per-server queues and the printed events.

    Conventions of the embedding.
    - Python dictionaries keep insertion order and [min] returns the first
      minimal element it meets, so dictionaries are association lists in
      insertion order ([dict_get], [dict_set]).
    - The task dictionaries are shared between [pending] and [elegiveis]
      and are mutated in place; they live in a store ([tarefas]) and the two
      lists hold references (positions in the store).
    - Numbers read from the clock, durations and execution times are
      modelled as exact rationals ([Q]); rounding of binary floating point
      is outside the model of the loop.  The arithmetic of the final
      metrics is also given over any number structure ([metricas_em]), of
      which the rationals and the binary64 floats are instances.  Server
      and task identifiers, priorities, capacities and loads are integers
      ([Z]).
    - A raised exception is a value [Erro e] of the result type. *)

From Stdlib Require Import Floats.
From Stdlib Require Import ZArith QArith Qminmax Lia Sorted.
From stdpp Require Import base tactics option list strings.

Open Scope Z_scope.

(** ** Exceptions and the result monad *)

Inductive Excecao : Type :=
| KeyError
| ValueError
| TypeError
| IndexError
| ZeroDivisionError.

Inductive Resultado (A : Type) : Type :=
| Ok (a : A)
| Erro (e : Excecao).
Arguments Ok {A} a.
Arguments Erro {A} e.

Definition ligar {A B} (m : Resultado A) (f : A -> Resultado B) : Resultado B :=
  match m with
  | Ok a => f a
  | Erro e => Erro e
  end.

Notation "x <~ m ; k" := (ligar m (fun x => k))
  (at level 200, m at level 100, right associativity).

Definition exigir {A} (e : Excecao) (o : option A) : Resultado A :=
  match o with
  | Some a => Ok a
  | None => Erro e
  end.

Fixpoint para_cada {A B} (f : A -> Resultado B) (l : list A) : Resultado (list B) :=
  match l with
  | [] => Ok []
  | x :: l' => y <~ f x; ys <~ para_cada f l'; Ok (y :: ys)
  end.

(** ** Dictionaries in insertion order *)

Section Dict.
Context {V : Type}.

Fixpoint dict_get (k : Z) (d : list (Z * V)) : option V :=
  match d with
  | [] => None
  | (k', v) :: d' => if Z.eqb k k' then Some v else dict_get k d'
  end.

(** [d[k] = v]: an existing key keeps its position, a new key goes last. *)
Fixpoint dict_set (k : Z) (v : V) (d : list (Z * V)) : list (Z * V) :=
  match d with
  | [] => [(k, v)]
  | (k', v') :: d' =>
      if Z.eqb k k' then (k, v) :: d' else (k', v') :: dict_set k v d'
  end.

Definition dict_keys (d : list (Z * V)) : list Z := map fst d.
Definition dict_values (d : list (Z * V)) : list V := map snd d.
End Dict.

(** ** Data model *)

(** One entry of [cfg["servidores"]] and of [cfg["requisicoes"]]. *)
Record Servidor := { s_id : Z; capacidade : Z }.
Record Requisicao := { q_id : Z; q_prioridade : Z; tempo_exec : Q }.
Record Config := {
  quantum : Q;
  servidores : list Servidor;
  requisicoes : list Requisicao }.

(** A pending task: the request's keys and the five keys added at line 30. *)
Record Tarefa := {
  t_id : Z;
  t_prioridade : Z;
  t_tempo_exec : Q;
  arrival_time : Q;
  t_remaining : Q;
  running : bool;
  last_worker : option Z }.

(** A value of [estados]. *)
Record Estado := { cap : Z; load : Z; busy : Q }.

(** A value of [completed]; [r_end] is the key ["end"]. *)
Record Registro := { arrival : Q; r_end : option Q }.

(** The message of lines 85-94: the keys ["slice"] and ["exec_time"] may be
    absent. *)
Record Msg := {
  m_id : Z;
  m_priority : Z;
  m_remaining : Q;
  m_slice : option Q;
  m_exec_time : option Q }.

(** What a queue of [filas] holds: a message or the final ["EXIT"]. *)
Inductive Item : Type :=
| ITarefa (m : Msg)
| IExit.

(** A response read from [retorno]. *)
Record Resposta := {
  worker : Z;
  r_id : Z;
  duration : Q;
  r_remaining : Q;
  cpu : Q;
  memory : Q }.

(** The lines printed inside the loop. *)
Inductive Evento : Type :=
| EvAtribuicao (elapsed : Q) (id prioridade sid : Z) (policy : string)
| EvMigracao (elapsed : Q) (id prioridade de para : Z) (policy : string)
| EvConclusao (elapsed : Q) (sid id : Z) (cpu_ memory_ : Q)
| EvPreempcao (elapsed : Q) (sid id : Z) (restante cpu_ memory_ : Q).

(** The run-scoped state of [executar_politica]. *)
Record Sim := {
  pending : list nat;
  tarefas : list Tarefa;
  estados : list (Z * Estado);
  completed : list (Z * Registro);
  filas : list (Z * list Item);
  eventos : list Evento }.

(** ** State at the start of a run (lines 25-44) *)

Definition nova_tarefa (start : Q) (r : Requisicao) : Tarefa :=
  {| t_id := q_id r; t_prioridade := q_prioridade r; t_tempo_exec := tempo_exec r;
     arrival_time := start; t_remaining := tempo_exec r;
     running := false; last_worker := None |}.

Definition estados_iniciais (ss : list Servidor) : list (Z * Estado) :=
  fold_left (fun d s => dict_set (s_id s) {| cap := capacidade s; load := 0; busy := 0%Q |} d)
            ss [].

Definition filas_iniciais (ss : list Servidor) : list (Z * list Item) :=
  fold_left (fun d s => dict_set (s_id s) [] d) ss [].

Definition estado_inicial (cfg : Config) (start : Q) : Sim :=
  {| pending := seq 0 (length (requisicoes cfg));
     tarefas := map (nova_tarefa start) (requisicoes cfg);
     estados := estados_iniciais (servidores cfg);
     completed := [];
     filas := filas_iniciais (servidores cfg);
     eventos := [] |}.

(** ** Filters of lines 51 and 55 *)

Definition elegivel (t : Tarefa) : bool :=
  negb (running t) && negb (Qle_bool (t_remaining t) 0).

Definition ref_elegivel (ts : list Tarefa) (r : nat) : bool :=
  match ts !! r with
  | Some t => elegivel t
  | None => false
  end.

Definition elegiveis_de (st : Sim) : list nat :=
  List.filter (ref_elegivel (tarefas st)) (pending st).

Definition tem_vaga (p : Z * Estado) : bool := load (snd p) <? cap (snd p).

Definition livres_de (est : list (Z * Estado)) : list Z :=
  map fst (List.filter tem_vaga est).

(** ** Choice of the server (lines 66-77) *)

(** The loop of [min(l, key=...)] after its first element: a later element
    replaces the best one only when its key is strictly smaller. *)
Fixpoint min_desde (best : Z * Z) (l : list (Z * Z)) : Z * Z :=
  match l with
  | [] => best
  | x :: l' => min_desde (if snd x <? snd best then x else best) l'
  end.

(** [min(l, key=lambda x: estados[x]["load"])]. *)
Definition menos_carregado (est : list (Z * Estado)) (l : list Z) : Resultado Z :=
  match l with
  | [] => Erro ValueError
  | _ =>
      ks <~ para_cada (fun x => s <~ exigir KeyError (dict_get x est); Ok (x, load s)) l;
      match ks with
      | [] => Erro ValueError
      | k :: ks' => Ok (fst (min_desde k ks'))
      end
  end.

Definition candidatos_de (lw : Z) (livres : list Z) : list Z :=
  List.filter (fun sid => negb (Z.eqb sid lw)) livres.

Definition escolher (est : list (Z * Estado)) (t : Tarefa) (livres : list Z) : Resultado Z :=
  match last_worker t with
  | Some lw =>
      match candidatos_de lw livres with
      | [] => menos_carregado est livres
      | c :: cs => menos_carregado est (c :: cs)
      end
  | None => menos_carregado est livres
  end.

(** ** One assignment (lines 61-120) *)

(** [min(a, b)] of two numbers: the first one unless the second is strictly
    smaller. *)
Definition py_min (a b : Q) : Q := if Qle_bool a b then a else b.

Definition construir_msg (policy : string) (quantum : Q) (t : Tarefa) : Msg :=
  if String.eqb policy "rr"
  then {| m_id := t_id t; m_priority := t_prioridade t; m_remaining := t_remaining t;
          m_slice := Some (py_min quantum (t_remaining t)); m_exec_time := None |}
  else {| m_id := t_id t; m_priority := t_prioridade t; m_remaining := t_remaining t;
          m_slice := None; m_exec_time := Some (t_remaining t) |}.

(** Modelled from the spec: [enviar_tarefa] of the module [ipc], whose file
    is not part of the sources; it sends the message to the chosen server's
    channel, here the end of that server's queue. *)
Definition enviar_tarefa (fila : list Item) (msg : Msg) : list Item :=
  fila ++ [ITarefa msg].

Definition com_running (b : bool) (t : Tarefa) : Tarefa :=
  {| t_id := t_id t; t_prioridade := t_prioridade t; t_tempo_exec := t_tempo_exec t;
     arrival_time := arrival_time t; t_remaining := t_remaining t;
     running := b; last_worker := last_worker t |}.

Definition com_last_worker (w : Z) (t : Tarefa) : Tarefa :=
  {| t_id := t_id t; t_prioridade := t_prioridade t; t_tempo_exec := t_tempo_exec t;
     arrival_time := arrival_time t; t_remaining := t_remaining t;
     running := running t; last_worker := Some w |}.

Definition com_remaining (q : Q) (t : Tarefa) : Tarefa :=
  {| t_id := t_id t; t_prioridade := t_prioridade t; t_tempo_exec := t_tempo_exec t;
     arrival_time := arrival_time t; t_remaining := q;
     running := running t; last_worker := last_worker t |}.

Definition com_load (n : Z) (s : Estado) : Estado :=
  {| cap := cap s; load := n; busy := busy s |}.

Definition com_busy (q : Q) (s : Estado) : Estado :=
  {| cap := cap s; load := load s; busy := q |}.

(** Lines 82-83. *)
Definition abrir_registro (t : Tarefa) (comp : list (Z * Registro)) : list (Z * Registro) :=
  match dict_get (t_id t) comp with
  | Some _ => comp
  | None => dict_set (t_id t) {| arrival := arrival_time t; r_end := None |} comp
  end.

(** Lines 100-114: which line is printed. *)
Definition evento_atribuicao (policy : string) (elapsed : Q) (t : Tarefa) (sid : Z) : Evento :=
  match last_worker t with
  | Some lw =>
      if negb (Z.eqb lw sid)
      then EvMigracao elapsed (t_id t) (t_prioridade t) lw sid policy
      else EvAtribuicao elapsed (t_id t) (t_prioridade t) sid policy
  | None => EvAtribuicao elapsed (t_id t) (t_prioridade t) sid policy
  end.

(** The body of the assignment loop for the task [r] handed out by the
    scheduler; the result carries the chosen server and the message sent. *)
Definition atribuir (policy : string) (quantum elapsed : Q) (st : Sim) (r : nat)
    (livres : list Z) : Resultado (Z * Msg * Sim) :=
  t <~ exigir TypeError (tarefas st !! r);
  sid <~ escolher (estados st) t livres;
  let t1 := com_running true t in
  let comp := abrir_registro t1 (completed st) in
  let msg := construir_msg policy quantum t1 in
  fila <~ exigir KeyError (dict_get sid (filas st));
  let filas' := dict_set sid (enviar_tarefa fila msg) (filas st) in
  s <~ exigir KeyError (dict_get sid (estados st));
  let est := dict_set sid (com_load (load s + 1) s) (estados st) in
  let ev := evento_atribuicao policy elapsed t1 sid in
  let t2 := com_last_worker sid t1 in
  Ok (sid, msg,
      {| pending := pending st;
         tarefas := <[r := t2]> (tarefas st);
         estados := est;
         completed := comp;
         filas := filas';
         eventos := eventos st ++ [ev] |}).

(** ** One response (lines 130-156) *)

Definition tem_id (ts : list Tarefa) (id : Z) (r : nat) : bool :=
  match ts !! r with
  | Some t => Z.eqb (t_id t) id
  | None => false
  end.

(** The task found by the scan of lines 138-142, if any. *)
Definition primeira_com_id (ts : list Tarefa) (pend : list nat) (id : Z) : option nat :=
  List.find (tem_id ts id) pend.

Definition atualizar_tarefa (ts : list Tarefa) (pend : list nat) (resp : Resposta) : list Tarefa :=
  match primeira_com_id ts pend (r_id resp) with
  | Some r =>
      match ts !! r with
      | Some t => <[r := com_running false (com_remaining (r_remaining resp) t)]> ts
      | None => ts
      end
  | None => ts
  end.

Definition processar_resposta (start : Q) (st : Sim) (resp : Resposta) (now2 : Q)
    : Resultado Sim :=
  let sid := worker resp in
  s <~ exigir KeyError (dict_get sid (estados st));
  let est := dict_set sid (com_load (load s - 1) (com_busy (busy s + duration resp) s))
                      (estados st) in
  let elapsed2 := (now2 - start)%Q in
  let ts := atualizar_tarefa (tarefas st) (pending st) resp in
  if Qeq_bool (r_remaining resp) 0 then
    reg <~ exigir KeyError (dict_get (r_id resp) (completed st));
    Ok {| pending := List.filter (fun r => negb (tem_id ts (r_id resp) r)) (pending st);
          tarefas := ts;
          estados := est;
          completed := dict_set (r_id resp) {| arrival := arrival reg; r_end := Some now2 |}
                                (completed st);
          filas := filas st;
          eventos := eventos st ++ [EvConclusao elapsed2 sid (r_id resp) (cpu resp) (memory resp)] |}
  else
    Ok {| pending := pending st;
          tarefas := ts;
          estados := est;
          completed := completed st;
          filas := filas st;
          eventos := eventos st ++
            [EvPreempcao elapsed2 sid (r_id resp) (r_remaining resp) (cpu resp) (memory resp)] |}.

(** ** Stop condition (line 159) *)

Definition terminada (ts : list Tarefa) (r : nat) : bool :=
  match ts !! r with
  | Some t => Qeq_bool (t_remaining t) 0
  | None => true
  end.

Definition condicao_parada (st : Sim) : bool :=
  forallb (terminada (tarefas st)) (pending st).

(** ** Final metrics (lines 167-172) *)

Record Metricas := { tempo_medio : Q; throughput : Q; utilizacao : Q }.

(** [sum(l)]: a left fold from 0. *)
Definition py_sum (l : list Q) : Q := fold_left Qplus l 0%Q.

Definition dividir (a b : Q) : Resultado Q :=
  if Qeq_bool b 0 then Erro ZeroDivisionError else Ok (a / b)%Q.

Definition py_len {A} (l : list A) : Q := inject_Z (Z.of_nat (length l)).

Definition metricas (comp : list (Z * Registro)) (est : list (Z * Estado)) (total : Q)
    : Resultado Metricas :=
  tempos <~ para_cada (fun c => e <~ exigir TypeError (r_end c); Ok (e - arrival c)%Q)
                      (dict_values comp);
  avg <~ dividir (py_sum tempos) (py_len tempos);
  thr <~ dividir (py_len comp) total;
  us <~ para_cada (fun s => u <~ dividir (busy s) total; Ok (u * 100)%Q) (dict_values est);
  util <~ dividir (py_sum us) (py_len est);
  Ok {| tempo_medio := avg; throughput := thr; utilizacao := util |}.

(** ** The metrics over any number structure *)

(** The operations that lines 169-172 use on numbers: [+] (inside [sum]),
    [-], [*], [/], the test [x == 0] of a division, and the conversion of
    an [int] such as [len(...)], [100] or the [0] that [sum] starts from. *)
Record Aritmetica := {
  num : Type;
  n_add : num -> num -> num;
  n_sub : num -> num -> num;
  n_mul : num -> num -> num;
  n_div : num -> num -> num;
  n_eh_zero : num -> bool;
  n_de_nat : nat -> num }.

(** The rationals of the model of the loop. *)
Definition arit_Q : Aritmetica :=
  {| num := Q; n_add := Qplus; n_sub := Qminus; n_mul := Qmult; n_div := Qdiv;
     n_eh_zero := fun x => Qeq_bool x 0;
     n_de_nat := fun n => inject_Z (Z.of_nat n) |}.

(** The binary64 floats of Python. *)
Definition arit_float : Aritmetica :=
  {| num := float; n_add := PrimFloat.add; n_sub := PrimFloat.sub;
     n_mul := PrimFloat.mul; n_div := PrimFloat.div;
     n_eh_zero := fun x => PrimFloat.eqb x PrimFloat.zero;
     n_de_nat := fun n => PrimFloat.of_uint63 (Uint63.of_Z (Z.of_nat n)) |}.

Section MetricasEm.
Variable A : Aritmetica.

(** [sum(l)]: from the [int] 0, adding the items from left to right. *)
Definition soma_em (l : list (num A)) : num A :=
  fold_left (n_add A) l (n_de_nat A 0).

(** [a / b] with a number [b]. *)
Definition dividir_em (a b : num A) : Resultado (num A) :=
  if n_eh_zero A b then Erro ZeroDivisionError else Ok (n_div A a b).

(** [a / len(l)]: the divisor is an [int], zero exactly for the empty
    list. *)
Definition dividir_por_len (a : num A) (n : nat) : Resultado (num A) :=
  match n with
  | O => Erro ZeroDivisionError
  | S _ => Ok (n_div A a (n_de_nat A n))
  end.

(** Lines 169-172 on the values of [completed] (arrival and end) and the
    busy times of [estados]: the mean response time, the throughput and
    the utilization. *)
Definition metricas_em (regs : list (num A * option (num A))) (busys : list (num A))
    (total : num A) : Resultado (num A * num A * num A) :=
  tempos <~ para_cada (fun c => e <~ exigir TypeError (snd c); Ok (n_sub A e (fst c))) regs;
  avg <~ dividir_por_len (soma_em tempos) (length tempos);
  thr <~ dividir_em (n_de_nat A (length regs)) total;
  us <~ para_cada (fun b => u <~ dividir_em b total; Ok (n_mul A u (n_de_nat A 100))) busys;
  util <~ dividir_por_len (soma_em us) (length busys);
  Ok (avg, thr, util).

(** The average of a list: its sum, taken as [sum] takes it, over its
    length. *)
Definition media_em (l : list (num A)) : num A :=
  n_div A (soma_em l) (n_de_nat A (length l)).

(** [end - arrival] of a closed record. *)
Definition tempo_em (c : num A * option (num A)) : num A :=
  match snd c with
  | Some e => n_sub A e (fst c)
  | None => n_de_nat A 0
  end.

(** [busy / T * 100]. *)
Definition ocupacao_em (total b : num A) : num A :=
  n_mul A (n_div A b total) (n_de_nat A 100).
End MetricasEm.

(** ** The scheduler *)

(** The class [Scheduler] lives in a module that is not part of the
    sources.  The loop uses two methods: [reorder], which rearranges the
    list [elegiveis] in place, and [next_task], which hands out one task of
    the list.  Both read the task store and the list of references. *)
Record Scheduler := {
  reorder : list Tarefa -> list nat -> list nat;
  next_task : list Tarefa -> list nat -> Resultado (nat * list nat) }.

(** Modelled from the spec: the round-robin variant of the missing class
    [Scheduler]; reorder is a no-op and next takes the head of the
    remaining queue. *)
Definition scheduler_rr : Scheduler :=
  {| reorder := fun _ l => l;
     next_task := fun _ l =>
       match l with
       | [] => Erro IndexError
       | r :: l' => Ok (r, l')
       end |}.

(** ** The loops of one run *)

(** What the run observes in one cycle: the clock of line 47 and the
    responses found in [retorno], each with the clock of line 134. *)
Record Ciclo := { c_now : Q; c_resps : list (Resposta * Q) }.

(** What a run observes: the clock of line 25, its cycles, the clock of
    line 167. *)
Record Ambiente := { amb_start : Q; amb_ciclos : list Ciclo; amb_fim : Q }.

(** Free slots of all servers: a bound on the iterations of the assignment
    loop. *)
Definition vagas (est : list (Z * Estado)) : nat :=
  fold_right (fun p n => (Z.to_nat (cap (snd p) - load (snd p)) + n)%nat) 0%nat est.

Section Laco.
Variable sched : Scheduler.
Variable policy : string.
Variable quantum : Q.
Variable start : Q.

(** Lines 60-120.  [None]: the fuel ran out before the loop ended. *)
Fixpoint atribuir_tarefas (fuel : nat) (elapsed : Q) (st : Sim)
    (elegiveis : list nat) (livres : list Z) : option (Resultado Sim) :=
  match elegiveis, livres with
  | [], _ => Some (Ok st)
  | _, [] => Some (Ok st)
  | _ :: _, _ :: _ =>
      match fuel with
      | O => None
      | S fuel' =>
          match next_task sched (tarefas st) elegiveis with
          | Erro e => Some (Erro e)
          | Ok (r, elegiveis') =>
              match atribuir policy quantum elapsed st r livres with
              | Erro e => Some (Erro e)
              | Ok (_, _, st') =>
                  atribuir_tarefas fuel' elapsed st' elegiveis' (livres_de (estados st'))
              end
          end
      end
  end.

(** Lines 125-156. *)
Fixpoint drenar (st : Sim) (resps : list (Resposta * Q)) : Resultado Sim :=
  match resps with
  | [] => Ok st
  | (resp, now2) :: resps' =>
      st' <~ processar_resposta start st resp now2;
      drenar st' resps'
  end.

(** Lines 46-162.  [None]: the observed cycles ended before the loop did. *)
Fixpoint ciclos (st : Sim) (obs : list Ciclo) : option (Resultado Sim) :=
  match obs with
  | [] => None
  | c :: obs' =>
      let elapsed := (c_now c - start)%Q in
      let elegiveis := reorder sched (tarefas st) (elegiveis_de st) in
      let livres := livres_de (estados st) in
      match atribuir_tarefas (vagas (estados st)) elapsed st elegiveis livres with
      | None => None
      | Some (Erro e) => Some (Erro e)
      | Some (Ok st1) =>
          match drenar st1 (c_resps c) with
          | Erro e => Some (Erro e)
          | Ok st2 => if condicao_parada st2 then Some (Ok st2) else ciclos st2 obs'
          end
      end
  end.
End Laco.

(** Lines 183-184. *)
Definition encerrar (fs : list (Z * list Item)) : list (Z * list Item) :=
  map (fun p => (fst p, snd p ++ [IExit])) fs.

(** [executar_politica(policy, cfg)] under the observations [amb]; the
    result carries the returned metrics and the final state. *)
Definition executar_politica (sched : Scheduler) (policy : string) (cfg : Config)
    (amb : Ambiente) : option (Resultado (Metricas * Sim)) :=
  let start := amb_start amb in
  match ciclos sched policy (quantum cfg) start (estado_inicial cfg start) (amb_ciclos amb) with
  | None => None
  | Some (Erro e) => Some (Erro e)
  | Some (Ok st) =>
      let total := (amb_fim amb - start)%Q in
      Some (m <~ metricas (completed st) (estados st) total;
            Ok (m, {| pending := pending st; tarefas := tarefas st; estados := estados st;
                      completed := completed st; filas := encerrar (filas st);
                      eventos := eventos st |}))
  end.

(** ** The loop as a transition system *)

(** Where the loop stands: inside the assignment loop with the clock
    reading of the cycle and what is left of [elegiveis], or inside the
    drain loop. *)
Inductive Fase : Type :=
| Atribuindo (elapsed : Q) (elegiveis : list nat)
| Drenando.

(** A point of a run: the state, the phase, and the dispatches that the
    workers have not answered yet. *)
Record Ponto := { p_sim : Sim; p_fase : Fase; em_voo : list (Z * Msg) }.

(** The response answers one earlier dispatch, which stops being
    outstanding. *)
Inductive responde : list (Z * Msg) -> Resposta -> list (Z * Msg) -> Prop :=
| responde_despacho ant m dep resp :
    m_id m = r_id resp ->
    responde (ant ++ (worker resp, m) :: dep) resp (ant ++ dep).

Section Passos.
Variable sched : Scheduler.
Variable policy : string.
Variable cfg : Config.
Variable start : Q.
(** How responses relate to the outstanding dispatches. *)
Variable amb : list (Z * Msg) -> Resposta -> list (Z * Msg) -> Prop.

Definition inicio_de_ciclo (st : Sim) (now : Q) : Fase :=
  Atribuindo (now - start)%Q (reorder sched (tarefas st) (elegiveis_de st)).

Inductive passo : Ponto -> Ponto -> Prop :=
| passo_atribuir st elapsed eleg voo r eleg' sid msg st' :
    eleg <> [] ->
    livres_de (estados st) <> [] ->
    next_task sched (tarefas st) eleg = Ok (r, eleg') ->
    atribuir policy (quantum cfg) elapsed st r (livres_de (estados st)) = Ok (sid, msg, st') ->
    passo {| p_sim := st; p_fase := Atribuindo elapsed eleg; em_voo := voo |}
          {| p_sim := st'; p_fase := Atribuindo elapsed eleg'; em_voo := voo ++ [(sid, msg)] |}
| passo_fim_atribuicao st elapsed eleg voo :
    eleg = [] \/ livres_de (estados st) = [] ->
    passo {| p_sim := st; p_fase := Atribuindo elapsed eleg; em_voo := voo |}
          {| p_sim := st; p_fase := Drenando; em_voo := voo |}
| passo_resposta st voo resp now2 voo' st' :
    amb voo resp voo' ->
    processar_resposta start st resp now2 = Ok st' ->
    passo {| p_sim := st; p_fase := Drenando; em_voo := voo |}
          {| p_sim := st'; p_fase := Drenando; em_voo := voo' |}
| passo_novo_ciclo st voo now :
    condicao_parada st = false ->
    passo {| p_sim := st; p_fase := Drenando; em_voo := voo |}
          {| p_sim := st; p_fase := inicio_de_ciclo st now; em_voo := voo |}.

Inductive alcancavel : Ponto -> Prop :=
| alc_inicio now :
    alcancavel {| p_sim := estado_inicial cfg start;
                  p_fase := inicio_de_ciclo (estado_inicial cfg start) now;
                  em_voo := [] |}
| alc_passo p p' : alcancavel p -> passo p p' -> alcancavel p'.
End Passos.

(** ** Vocabulary of the properties *)

(** The current load of a server, as the key of [min] reads it. *)
Definition carga (est : list (Z * Estado)) (x : Z) : Z :=
  match dict_get x est with
  | Some s => load s
  | None => 0
  end.

(** [sid] has minimum load in [l] and, among the servers of [l] with that
    load, the smallest identifier. *)
Definition minimo_menor_id (est : list (Z * Estado)) (l : list Z) (sid : Z) : Prop :=
  sid ∈ l /\
  forall y, y ∈ l -> carga est sid < carga est y \/ (carga est sid = carga est y /\ sid <= y).

(** [sid] has minimum load in [l] and is the first server of [l] with that
    load. *)
Definition primeiro_minimo (est : list (Z * Estado)) (l : list Z) (sid : Z) : Prop :=
  exists ant dep,
    l = ant ++ sid :: dep /\
    (forall y, y ∈ ant -> carga est sid < carga est y) /\
    (forall y, y ∈ dep -> carga est sid <= carga est y).

Definition eh_migracao (ev : Evento) : bool :=
  match ev with
  | EvMigracao _ _ _ _ _ _ => true
  | _ => false
  end.

(** The average as the metrics section words it: the sum of the values
    over their number. *)
Definition soma (l : list Q) : Q := fold_right Qplus 0%Q l.
Definition media (l : list Q) : Q := (soma l / py_len l)%Q.

Definition tempo_resposta (c : Registro) : Q :=
  match r_end c with
  | Some e => (e - arrival c)%Q
  | None => 0%Q
  end.

Definition ocupacao (total : Q) (s : Estado) : Q := (busy s / total * 100)%Q.



(** What the loop expects of the scheduler: [reorder] rearranges the list
    and [next_task] takes one task out of it. *)
Definition contrato (sched : Scheduler) : Prop :=
  (forall ts l, reorder sched ts l ≡ₚ l) /\
  (forall ts l r l', next_task sched ts l = Ok (r, l') -> l ≡ₚ r :: l').

(** Responses that answer nothing in particular. *)
Definition qualquer (voo : list (Z * Msg)) (resp : Resposta) (voo' : list (Z * Msg)) : Prop :=
  voo' = voo.

(** Invariant of the pending list behind the stop condition. *)
Definition pendentes_com_trabalho (st : Sim) : Prop :=
  forall r, r ∈ pending st ->
    exists t, tarefas st !! r = Some t /\ ~ (t_remaining t == 0)%Q.




(** ** Concrete inputs *)

Definition srv (i c : Z) : Servidor := {| s_id := i; capacidade := c |}.
Definition req (i p : Z) (e : Q) : Requisicao :=
  {| q_id := i; q_prioridade := p; tempo_exec := e |}.

(** Two servers listed with the larger identifier first. *)
Definition cfg_invertida : Config :=
  {| quantum := 2; servidores := [srv 2 1; srv 1 1]; requisicoes := [req 1 1 5] |}.

(** The scenario of the spec: two servers of capacity 1 and one task. *)
Definition cfg_cenario : Config :=
  {| quantum := 2; servidores := [srv 1 1; srv 2 1]; requisicoes := [req 1 1 5] |}.

Definition cfg_sem_requisicoes : Config :=
  {| quantum := 2; servidores := [srv 1 1; srv 2 1]; requisicoes := [] |}.

Definition resposta_desconhecida : Resposta :=
  {| worker := 1; r_id := 99; duration := 1; r_remaining := 1; cpu := 50; memory := 100 |}.

Definition resposta_final : Resposta :=
  {| worker := 1; r_id := 1; duration := 4; r_remaining := 0; cpu := 50; memory := 100 |}.

Definition amb_um_ciclo : Ambiente :=
  {| amb_start := 0; amb_ciclos := [{| c_now := 0; c_resps := [] |}]; amb_fim := 1 |}.

(** One task that a worker runs to its end in one dispatch: sent at 0,
    answered at 4. *)
Definition cfg_uma_tarefa : Config :=
  {| quantum := 2; servidores := [srv 1 1]; requisicoes := [req 1 1 4] |}.

Definition amb_uma_tarefa : Ambiente :=
  {| amb_start := 0;
     amb_ciclos := [{| c_now := 0; c_resps := [] |};
                    {| c_now := 4; c_resps := [(resposta_final, 4%Q)] |}];
     amb_fim := 4 |}.

(** The scenario run under round-robin with quantum 2: three dispatches,
    answered with remaining work 3, 1 and 0. *)
Definition resposta_rr (w : Z) (d rem : Q) : Resposta :=
  {| worker := w; r_id := 1; duration := d; r_remaining := rem; cpu := 50; memory := 100 |}.

Definition amb_cenario_rr : Ambiente :=
  {| amb_start := 0;
     amb_ciclos := [{| c_now := 0; c_resps := [(resposta_rr 1 2 3, 2%Q)] |};
                    {| c_now := 2; c_resps := [(resposta_rr 2 2 1, 4%Q)] |};
                    {| c_now := 4; c_resps := [(resposta_rr 1 1 0, 5%Q)] |}];
     amb_fim := 5 |}.

(** Three servers listed by decreasing identifier, and a task that last ran
    on server 3. *)
Definition servidores_decrescentes : list Servidor := [srv 3 1; srv 2 1; srv 1 1].

Definition tarefa_vinda_de_3 : Tarefa := com_last_worker 3 (nova_tarefa 0 (req 1 1 5)).




(** ** The other functions of the module *)

(** [prioridade_label(n)] (lines 16-17): a dictionary lookup with the
    default ["?"]. *)
Definition prioridade_label (n : Z) : string :=
  match n with
  | 1 => "Alta"
  | 2 => "Média"
  | 3 => "Baixa"
  | _ => "?"
  end.

(** The dictionary [politicas] of [main] (lines 192-196), in its order. *)
Definition politicas : list (string * string) :=
  [("RR", "rr"); ("SJF", "sjf"); ("PRIORIDADE", "prioridade")]%string.

(** The three figures printed under "Resumo Geral" (lines 222-234). *)
Record Resumo := {
  tempo_medio_geral : Q;
  throughput_medio : Q;
  utilizacao_media : Q }.

(** The dictionary comprehension of lines 198-201: one run per policy, in
    order; [mk] is the constructor [Scheduler(policy)] and [amb_de] gives
    what the run of each policy observes. *)
Fixpoint executar_todas (mk : string -> Scheduler) (cfg : Config)
    (amb_de : string -> Ambiente) (ps : list (string * string))
    : option (Resultado (list (string * Metricas))) :=
  match ps with
  | [] => Some (Ok [])
  | (nome, pol) :: ps' =>
      match executar_politica (mk pol) pol cfg (amb_de pol) with
      | None => None
      | Some (Erro e) => Some (Erro e)
      | Some (Ok (m, _)) =>
          match executar_todas mk cfg amb_de ps' with
          | None => None
          | Some (Erro e) => Some (Erro e)
          | Some (Ok rs) => Some (Ok ((nome, m) :: rs))
          end
      end
  end.

(** [main()] after the configuration is loaded: the table of results and
    the general summary, each sum divided by 3. *)
Definition main (mk : string -> Scheduler) (cfg : Config) (amb_de : string -> Ambiente)
    : option (Resultado (list (string * Metricas) * Resumo)) :=
  match executar_todas mk cfg amb_de politicas with
  | None => None
  | Some (Erro e) => Some (Erro e)
  | Some (Ok rs) =>
      Some (Ok (rs,
        {| tempo_medio_geral := (py_sum (map (fun r => tempo_medio (snd r)) rs) / 3)%Q;
           throughput_medio := (py_sum (map (fun r => throughput (snd r)) rs) / 3)%Q;
           utilizacao_media := (py_sum (map (fun r => utilizacao (snd r)) rs) / 3)%Q |}))
  end.

(** ** Vocabulary of the further properties *)

(** The state a server starts in. *)
Definition estado_de (sv : Servidor) : Estado :=
  {| cap := capacidade sv; load := 0; busy := 0%Q |}.

(** The last entry of the server list with a given identifier. *)
Definition ultimo_com_id (k : Z) (ss : list Servidor) : option Servidor :=
  List.find (fun sv => Z.eqb (s_id sv) k) (rev ss).

(** The responses of a drain that come from one worker. *)
Definition respostas_de (k : Z) (resps : list (Resposta * Q)) : list Resposta :=
  List.filter (fun resp => Z.eqb (worker resp) k) (map fst resps).

(** Some pending task still has work. *)
Definition tem_trabalho (st : Sim) : Prop :=
  exists r t, r ∈ pending st /\ tarefas st !! r = Some t /\ ~ (t_remaining t == 0)%Q.

(** A queue that holds dispatch messages only. *)
Definition so_tarefas (q : list Item) : Prop := exists msgs, q = map ITarefa msgs.

(** Items put on all the queues. *)
Definition total_enviado (fs : list (Z * list Item)) : nat :=
  fold_right (fun p n => (length (snd p) + n)%nat) 0%nat fs.

Definition eh_despacho (ev : Evento) : bool :=
  match ev with
  | EvAtribuicao _ _ _ _ _ => true
  | EvMigracao _ _ _ _ _ _ => true
  | _ => false
  end.

(** The store still holds the requests as configured. *)
Definition tarefas_conforme (cfg : Config) (start : Q) (st : Sim) : Prop :=
  length (tarefas st) = length (requisicoes cfg) /\
  forall r q, requisicoes cfg !! r = Some q ->
    exists t, tarefas st !! r = Some t /\
      t_id t = q_id q /\ t_prioridade t = q_prioridade q /\
      t_tempo_exec t = tempo_exec q /\ arrival_time t = start.

(** Every record belongs to a task of the store and carries the start of
    the run as its arrival. *)
Definition registros_conforme (start : Q) (st : Sim) : Prop :=
  forall k reg, dict_get k (completed st) = Some reg ->
    arrival reg = start /\ exists r t, tarefas st !! r = Some t /\ t_id t = k.

(** The queues and the server states have the keys they started with, and
    the queues hold messages only. *)
Definition filas_conforme (cfg : Config) (st : Sim) : Prop :=
  dict_keys (estados st) = dict_keys (estados_iniciais (servidores cfg)) /\
  dict_keys (filas st) = dict_keys (estados_iniciais (servidores cfg)) /\
  forall k q, dict_get k (filas st) = Some q -> so_tarefas q.

(** No server is loaded beyond its capacity. *)
Definition carga_limitada (st : Sim) : Prop :=
  NoDup (dict_keys (estados st)) /\
  forall k s, dict_get k (estados st) = Some s -> load s <= cap s.

(** ** More concrete inputs *)

(** Server 1 configured twice. *)
Definition servidores_repetidos : list Servidor := [srv 1 1; srv 2 1; srv 1 3].

(** Two requests with the same identifier; the first one is running. *)
Definition sim_ids_repetidos : Sim :=
  {| pending := [0%nat; 1%nat; 2%nat];
     tarefas := [com_running true (nova_tarefa 0 (req 1 1 4));
                 nova_tarefa 0 (req 1 2 7);
                 nova_tarefa 0 (req 2 1 3)];
     estados := [(1, {| cap := 1; load := 1; busy := 0 |})];
     completed := [(1, {| arrival := 0; r_end := None |})];
     filas := [(1, [])];
     eventos := [] |}.

(** A task that ran on server 1 and is eligible again, with both servers
    free. *)
Definition sim_retorno : Sim :=
  {| pending := [0%nat];
     tarefas := [com_last_worker 1 (com_remaining 3 (nova_tarefa 0 (req 1 1 5)))];
     estados := [(1, {| cap := 1; load := 0; busy := 2 |});
                 (2, {| cap := 1; load := 0; busy := 0 |})];
     completed := [(1, {| arrival := 0; r_end := None |})];
     filas := [(1, []); (2, [])];
     eventos := [] |}.

Definition cfg_tempo_zero : Config :=
  {| quantum := 2; servidores := [srv 1 1]; requisicoes := [req 1 1 0; req 2 1 0] |}.

Definition amb_sem_respostas : Ambiente :=
  {| amb_start := 0;
     amb_ciclos := [{| c_now := 0; c_resps := [] |}; {| c_now := 1; c_resps := [] |};
                    {| c_now := 2; c_resps := [] |}];
     amb_fim := 3 |}.

(** The scenario after its first dispatch: the task runs on server 1. *)
Definition msg_cenario_1 : Msg :=
  {| m_id := 1; m_priority := 1; m_remaining := 5; m_slice := Some 2%Q; m_exec_time := None |}.

Definition sim_cenario_1 : Sim :=
  {| pending := [0%nat];
     tarefas := [com_last_worker 1 (com_running true (nova_tarefa 0 (req 1 1 5)))];
     estados := [(1, {| cap := 1; load := 1; busy := 0 |});
                 (2, {| cap := 1; load := 0; busy := 0 |})];
     completed := [(1, {| arrival := 0; r_end := None |})];
     filas := [(1, [ITarefa msg_cenario_1]); (2, [])];
     eventos := [EvAtribuicao 0 1 1 1 "rr"] |}.

Definition ponto_cenario_1 : Ponto :=
  {| p_sim := sim_cenario_1; p_fase := Atribuindo 0 []; em_voo := [] ++ [(1, msg_cenario_1)] |}.

(** A scheduler whose [next_task] raises nothing on a list that is not
    empty. *)
Definition sem_falha (sched : Scheduler) : Prop :=
  forall ts l, l <> [] -> exists r l', next_task sched ts l = Ok (r, l').

(** Every record that is still open is the record of a pending task. *)
Definition registros_abertos_pendentes (st : Sim) : Prop :=
  forall k reg, dict_get k (completed st) = Some reg -> r_end reg = None ->
    exists r t, r ∈ pending st /\ tarefas st !! r = Some t /\ t_id t = k.

(** Invariant behind the metrics of a run that ends. *)
Record inv_saida (cfg : Config) (p : Ponto) : Prop := {
  is_chaves : NoDup (dict_keys (completed (p_sim p)));
  is_abertos : registros_abertos_pendentes (p_sim p);
  is_vazio : completed (p_sim p) = [] ->
             pending (p_sim p) = seq 0 (length (requisicoes cfg));
  is_estados : completed (p_sim p) <> [] -> estados (p_sim p) <> [];
  is_fase : match p_fase p with
            | Atribuindo _ eleg => forall r, r ∈ eleg -> r ∈ pending (p_sim p)
            | Drenando => True
            end }.

Definition cfg_sem_capacidade : Config :=
  {| quantum := 2; servidores := [srv 1 0; srv 2 0]; requisicoes := [req 1 1 5] |}.

(** * Properties *)

(** ** Dictionaries *)

Section DictLemas.
Context {V : Type}.
Implicit Types (d : list (Z * V)) (k : Z) (v : V).

Lemma dict_get_set_eq d k v : dict_get k (dict_set k v d) = Some v.
Proof.
  induction d as [|[k' v'] d IH]; simpl.
  - by rewrite Z.eqb_refl.
  - destruct (Z.eqb_spec k k') as [->|Hne]; simpl.
    + by rewrite Z.eqb_refl.
    + destruct (Z.eqb_spec k k'); [done|]. exact IH.
Qed.

Lemma dict_get_set_ne d k k' v : k <> k' -> dict_get k' (dict_set k v d) = dict_get k' d.
Proof.
  intros Hne. induction d as [|[k0 v0] d IH]; simpl.
  - destruct (Z.eqb_spec k' k); [congruence|done].
  - destruct (Z.eqb_spec k k0) as [->|Hk]; simpl.
    + destruct (Z.eqb_spec k' k0); [congruence|done].
    + destruct (Z.eqb_spec k' k0); [done|]. exact IH.
Qed.

Lemma dict_get_keys d k : is_Some (dict_get k d) <-> k ∈ dict_keys d.
Proof.
  unfold dict_keys. induction d as [|[k' v'] d IH]; simpl.
  - split; [by intros [? ?]|]. intros H. by apply elem_of_nil in H.
  - rewrite elem_of_cons. destruct (Z.eqb_spec k k') as [->|Hne].
    + split; eauto.
    + rewrite IH. split; [by right|]. by intros [?|?].
Qed.

Lemma dict_get_elem d k v : dict_get k d = Some v -> (k, v) ∈ d.
Proof.
  induction d as [|[k' v'] d IH]; simpl; [done|].
  destruct (Z.eqb_spec k k') as [->|Hne].
  - intros [= ->]. apply elem_of_cons. by left.
  - intros H. apply elem_of_cons. right. by apply IH.
Qed.

Lemma dict_elem_get d k v : NoDup (dict_keys d) -> (k, v) ∈ d -> dict_get k d = Some v.
Proof.
  unfold dict_keys. induction d as [|[k' v'] d IH]; simpl.
  - intros _ H. by apply elem_of_nil in H.
  - intros Hnd Hin. apply NoDup_cons in Hnd as [Hnotin Hnd].
    apply elem_of_cons in Hin as [[= -> ->]|Hin].
    + by rewrite Z.eqb_refl.
    + destruct (Z.eqb_spec k k') as [->|Hne]; [|by apply IH].
      exfalso. apply Hnotin. apply list_elem_of_In, in_map_iff.
      exists (k', v). split; [done|]. by apply list_elem_of_In.
Qed.

Lemma dict_keys_set_present d k v :
  is_Some (dict_get k d) -> dict_keys (dict_set k v d) = dict_keys d.
Proof.
  unfold dict_keys. induction d as [|[k' v'] d IH]; simpl.
  - by intros [? ?].
  - destruct (Z.eqb_spec k k') as [->|Hne]; simpl; [done|].
    intros H. by rewrite IH.
Qed.

Lemma dict_keys_set_absent d k v :
  dict_get k d = None -> dict_keys (dict_set k v d) = dict_keys d ++ [k].
Proof.
  unfold dict_keys. induction d as [|[k' v'] d IH]; simpl; [done|].
  destruct (Z.eqb_spec k k') as [->|Hne]; simpl; [done|].
  intros H. by rewrite IH.
Qed.

Lemma dict_keys_set_NoDup d k v : NoDup (dict_keys d) -> NoDup (dict_keys (dict_set k v d)).
Proof.
  intros Hnd. destruct (dict_get k d) as [v0|] eqn:Hget.
  - rewrite dict_keys_set_present; [done|]. by eexists.
  - rewrite dict_keys_set_absent by done.
    apply NoDup_app. split; [done|]. split; [|apply NoDup_singleton].
    intros x Hx Hx'. apply list_elem_of_singleton in Hx' as ->.
    apply dict_get_keys in Hx as [? ?]. congruence.
Qed.
End DictLemas.

(** ** Choice of the server *)

Lemma para_cada_cargas est l :
  (forall x, x ∈ l -> is_Some (dict_get x est)) ->
  para_cada (fun x => s <~ exigir KeyError (dict_get x est); Ok (x, load s)) l
  = Ok (map (fun x => (x, carga est x)) l).
Proof.
  induction l as [|x l IH]; intros Hall; simpl; [done|].
  destruct (Hall x) as [s Hs]; [by left|].
  unfold carga at 1. rewrite Hs. simpl. rewrite IH; [done|].
  intros y Hy. apply Hall. by right.
Qed.

Lemma min_desde_primeiro (key : Z -> Z) ant b meio l :
  (forall y, y ∈ ant -> key b < key y) ->
  (forall y, y ∈ meio -> key b <= key y) ->
  exists sid ant' dep',
    min_desde (b, key b) (map (fun x => (x, key x)) l) = (sid, key sid) /\
    ant ++ b :: meio ++ l = ant' ++ sid :: dep' /\
    (forall y, y ∈ ant' -> key sid < key y) /\
    (forall y, y ∈ dep' -> key sid <= key y).
Proof.
  revert ant b meio. induction l as [|x l IH]; intros ant b meio Hant Hmeio; simpl.
  - exists b, ant, meio. by rewrite app_nil_r.
  - destruct (Z.ltb_spec (key x) (key b)) as [Hlt|Hge].
    + destruct (IH (ant ++ b :: meio) x []) as (sid & ant' & dep' & Hmin & Heq & H1 & H2).
      * intros y Hy. apply elem_of_app in Hy as [Hy|Hy].
        -- specialize (Hant y Hy). lia.
        -- apply elem_of_cons in Hy as [->|Hy]; [done|]. specialize (Hmeio y Hy). lia.
      * intros y Hy. by apply elem_of_nil in Hy.
      * exists sid, ant', dep'. split; [done|]. split; [|done].
        rewrite <- Heq. simpl. by rewrite <- app_assoc.
    + destruct (IH ant b (meio ++ [x])) as (sid & ant' & dep' & Hmin & Heq & H1 & H2).
      * done.
      * intros y Hy. apply elem_of_app in Hy as [Hy|Hy]; [by apply Hmeio|].
        apply list_elem_of_singleton in Hy as ->. lia.
      * exists sid, ant', dep'. split; [done|]. split; [|done].
        rewrite <- Heq. by rewrite <- app_assoc.
Qed.

Lemma menos_carregado_primeiro est l :
  l <> [] ->
  (forall x, x ∈ l -> is_Some (dict_get x est)) ->
  exists sid, menos_carregado est l = Ok sid /\ primeiro_minimo est l sid.
Proof.
  intros Hne Hall. destruct l as [|b l]; [done|].
  unfold menos_carregado. rewrite para_cada_cargas by done. simpl.
  destruct (min_desde_primeiro (carga est) [] b [] l) as (sid & ant & dep & Hmin & Heq & H1 & H2).
  - intros y Hy. by apply elem_of_nil in Hy.
  - intros y Hy. by apply elem_of_nil in Hy.
  - exists sid. rewrite Hmin. split; [done|]. by exists ant, dep.
Qed.

Lemma livres_de_chave est x : x ∈ livres_de est -> is_Some (dict_get x est).
Proof.
  unfold livres_de. intros Hx. apply dict_get_keys. unfold dict_keys.
  apply list_elem_of_In, in_map_iff in Hx as ([k s] & <- & Hin).
  apply filter_In in Hin as [Hin _].
  apply list_elem_of_In, in_map_iff. by exists (k, s).
Qed.

Lemma candidatos_de_elem lw livres x :
  x ∈ candidatos_de lw livres <-> x ∈ livres /\ x <> lw.
Proof.
  unfold candidatos_de. rewrite !list_elem_of_In, filter_In.
  destruct (Z.eqb_spec x lw); simpl; intuition congruence.
Qed.

Lemma primeiro_minimo_elem est l sid : primeiro_minimo est l sid -> sid ∈ l.
Proof.
  intros (ant & dep & -> & _). apply elem_of_app. right. by left.
Qed.

Lemma primeiro_minimo_minimo est l sid y :
  primeiro_minimo est l sid -> y ∈ l -> carga est sid <= carga est y.
Proof.
  intros (ant & dep & -> & H1 & H2) Hy.
  apply elem_of_app in Hy as [Hy|Hy]; [specialize (H1 y Hy); lia|].
  apply elem_of_cons in Hy as [->|Hy]; [lia|]. by apply H2.
Qed.

Lemma ids_crescentes_depois ant sid dep y :
  StronglySorted Z.lt (ant ++ sid :: dep) -> y ∈ dep -> sid < y.
Proof.
  induction ant as [|a ant IH]; simpl; intros Hs Hy.
  - apply StronglySorted_inv in Hs as [_ Hall].
    by apply (proj1 (Forall_forall _ _) Hall).
  - apply StronglySorted_inv in Hs as [Hs _]. by apply IH.
Qed.

(** With the servers listed by increasing identifier the first server of
    minimum load is also the one with the smallest identifier. *)
Lemma primeiro_minimo_ids_crescentes est l sid :
  StronglySorted Z.lt l -> primeiro_minimo est l sid -> minimo_menor_id est l sid.
Proof.
  intros Hs (ant & dep & -> & H1 & H2). split.
  - apply elem_of_app. right. by left.
  - intros y Hy. apply elem_of_app in Hy as [Hy|Hy]; [left; by apply H1|].
    apply elem_of_cons in Hy as [->|Hy]; [right; lia|].
    pose proof (ids_crescentes_depois _ _ _ _ Hs Hy). specialize (H2 y Hy). lia.
Qed.

(** C1 (as stated): a task that last ran on server 3 finds the servers 3,
    2 and 1 free with equal load; among the alternate servers 2 and 1 the
    loop chooses server 2, which is listed first, and not server 1, which
    has the smallest identifier. *)
Lemma escolher_nao_menor_id :
  let est := estados_iniciais servidores_decrescentes in
  last_worker tarefa_vinda_de_3 = Some 3 /\
  livres_de est = [3; 2; 1] /\
  candidatos_de 3 (livres_de est) = [2; 1] /\
  carga est 2 = carga est 1 /\
  escolher est tarefa_vinda_de_3 (livres_de est) = Ok 2 /\
  ~ minimo_menor_id est (candidatos_de 3 (livres_de est)) 2.
Proof.
  repeat (split; [reflexivity|]).
  intros [_ H]. destruct (H 1) as [Hlt|[_ Hle]].
  - vm_compute. apply list_elem_of_In. simpl. auto.
  - vm_compute in Hlt. discriminate.
  - lia.
Qed.

(** C1 (amended): for a task whose [last_worker] is set, when a free server
    other than [last_worker] exists the loop chooses, among those servers,
    one of minimum current load, the first such server in the order of the
    free list (the order in which the servers are configured); when none
    exists it chooses the first server of minimum load among all free
    servers; for a task never assigned it chooses the first server of
    minimum load among all free servers. *)
Theorem escolher_primeiro_minimo est t :
  livres_de est <> [] ->
  exists sid,
    escolher est t (livres_de est) = Ok sid /\
    match last_worker t with
    | Some lw =>
        (candidatos_de lw (livres_de est) <> [] ->
           primeiro_minimo est (candidatos_de lw (livres_de est)) sid /\ sid <> lw) /\
        (candidatos_de lw (livres_de est) = [] ->
           primeiro_minimo est (livres_de est) sid)
    | None => primeiro_minimo est (livres_de est) sid
    end.
Proof.
  intros Hne. unfold escolher.
  destruct (last_worker t) as [lw|].
  - destruct (candidatos_de lw (livres_de est)) as [|c cs] eqn:Hc.
    + destruct (menos_carregado_primeiro est (livres_de est)) as (sid & Hsid & Hmin);
        [done|apply livres_de_chave|].
      exists sid. split; [done|]. split; [done|]. by intros _.
    + destruct (menos_carregado_primeiro est (c :: cs)) as (sid & Hsid & Hmin); [done| |].
      * intros x Hx. rewrite <- Hc in Hx. apply candidatos_de_elem in Hx as [Hx _].
        by apply livres_de_chave.
      * exists sid. split; [done|]. split; [|done]. intros _. split; [done|].
        apply primeiro_minimo_elem in Hmin. rewrite <- Hc in Hmin.
        by apply candidatos_de_elem in Hmin as [_ ?].
  - destruct (menos_carregado_primeiro est (livres_de est)) as (sid & Hsid & Hmin);
      [done|apply livres_de_chave|].
    by exists sid.
Qed.

Lemma escolher_primeiro_minimo_witness :
  let est := estados_iniciais servidores_decrescentes in
  livres_de est <> [] /\
  exists sid,
    escolher est tarefa_vinda_de_3 (livres_de est) = Ok sid /\
    primeiro_minimo est (candidatos_de 3 (livres_de est)) sid /\ sid <> 3.
Proof.
  intros est.
  assert (Hl : livres_de est <> []) by discriminate.
  split; [exact Hl|].
  destruct (escolher_primeiro_minimo est tarefa_vinda_de_3 Hl) as (sid & Hsid & Hcand & _).
  exists sid. split; [exact Hsid|]. apply Hcand. discriminate.
Defined.

(** ** One assignment *)

Lemma atribuir_inv policy quantum elapsed st r livres sid msg st' :
  atribuir policy quantum elapsed st r livres = Ok (sid, msg, st') ->
  exists t fila s,
    tarefas st !! r = Some t /\
    escolher (estados st) t livres = Ok sid /\
    dict_get sid (filas st) = Some fila /\
    dict_get sid (estados st) = Some s /\
    msg = construir_msg policy quantum (com_running true t) /\
    st' = {| pending := pending st;
             tarefas := <[r := com_last_worker sid (com_running true t)]> (tarefas st);
             estados := dict_set sid (com_load (load s + 1) s) (estados st);
             completed := abrir_registro (com_running true t) (completed st);
             filas := dict_set sid (enviar_tarefa fila msg) (filas st);
             eventos := eventos st ++ [evento_atribuicao policy elapsed (com_running true t) sid] |}.
Proof.
  unfold atribuir. intros H.
  destruct (tarefas st !! r) as [t|] eqn:Ht; simpl in H; [|done].
  destruct (escolher (estados st) t livres) as [sid0|] eqn:Hesc; simpl in H; [|done].
  destruct (dict_get sid0 (filas st)) as [fila|] eqn:Hfila; simpl in H; [|done].
  destruct (dict_get sid0 (estados st)) as [s|] eqn:Hs; simpl in H; [|done].
  injection H as Hsid Hmsg Hst. subst sid0 msg st'. by exists t, fila, s.
Qed.

Lemma py_min_Qmin a b : py_min a b = Qmin a b.
Proof.
  unfold py_min, Qmin, GenericMinMax.gmin, Qle_bool, Qcompare.
  destruct (Z.leb_spec (Qnum a * QDen b) (Qnum b * QDen a)) as [Hle|Hgt];
    destruct (Z.compare_spec (Qnum a * QDen b) (Qnum b * QDen a)); try done; lia.
Qed.

(** C2: an assignment prints one line; it is the migration line exactly when
    the task's [last_worker] is set and differs from the chosen server, and
    the assignment line otherwise; afterwards [last_worker] is the chosen
    server. *)
Theorem atribuir_evento_migracao policy quantum elapsed st r livres sid msg st' t :
  tarefas st !! r = Some t ->
  atribuir policy quantum elapsed st r livres = Ok (sid, msg, st') ->
  escolher (estados st) t livres = Ok sid /\
  (exists ev,
     eventos st' = eventos st ++ [ev] /\
     (eh_migracao ev = true <-> exists lw, last_worker t = Some lw /\ lw <> sid) /\
     (forall lw, last_worker t = Some lw -> lw <> sid ->
        ev = EvMigracao elapsed (t_id t) (t_prioridade t) lw sid policy) /\
     (last_worker t = None \/ last_worker t = Some sid ->
        ev = EvAtribuicao elapsed (t_id t) (t_prioridade t) sid policy)) /\
  (exists t', tarefas st' !! r = Some t' /\ last_worker t' = Some sid).
Proof.
  intros Ht H. apply atribuir_inv in H as (t0 & fila & s & Ht0 & Hesc & _ & _ & _ & ->).
  rewrite Ht in Ht0. injection Ht0 as <-. split; [done|]. split.
  - eexists. split; [reflexivity|]. unfold evento_atribuicao. simpl.
    destruct (last_worker t) as [lw|] eqn:Hlw.
    + destruct (Z.eqb_spec lw sid) as [->|Hne]; simpl.
      * split; [|split].
        -- split; [done|]. intros (lw & [= <-] & ?). done.
        -- intros lw [= <-] ?. done.
        -- done.
      * split; [|split].
        -- split; [|done]. intros _. by exists lw.
        -- by intros ? [= <-] _.
        -- intros [?|[= ?]]; done.
    + split; [|split].
      * split; [done|]. by intros (? & ? & _).
      * by intros ? ?.
      * done.
  - exists (com_last_worker sid (com_running true t)). split; [|reflexivity].
    simpl. apply list_lookup_insert_eq. by eapply lookup_lt_Some.
Qed.

Lemma atribuir_evento_migracao_witness :
  let st := estado_inicial cfg_cenario 0 in
  exists sid msg st',
    st.(tarefas) !! 0%nat = Some (nova_tarefa 0 (req 1 1 5)) /\
    atribuir "rr" 2 0 st 0 (livres_de (estados st)) = Ok (sid, msg, st') /\
    exists t', tarefas st' !! 0%nat = Some t' /\ last_worker t' = Some sid.
Proof.
  intros st. eexists _, _, _.
  split; [reflexivity|]. split; [cbv; reflexivity|].
  edestruct (atribuir_evento_migracao "rr" 2 0 st 0 (livres_de (estados st)))
    as (_ & _ & Hlw); [reflexivity | cbv; reflexivity | exact Hlw].
Defined.

(** C6: the message of an assignment carries the task's id, priority and
    remaining work and exactly one of [slice] and [exec_time]: under ["rr"]
    the slice [min(quantum, remaining)] and no [exec_time], under any other
    policy [exec_time = remaining] and no slice; it is put at the end of the
    chosen server's queue. *)
Theorem mensagem_slice_ou_exec_time policy quantum elapsed st r livres sid msg st' t :
  tarefas st !! r = Some t ->
  atribuir policy quantum elapsed st r livres = Ok (sid, msg, st') ->
  (m_id msg = t_id t /\ m_priority msg = t_prioridade t /\ m_remaining msg = t_remaining t) /\
  (policy = "rr"%string ->
     m_slice msg = Some (Qmin quantum (t_remaining t)) /\ m_exec_time msg = None) /\
  (policy <> "rr"%string ->
     m_slice msg = None /\ m_exec_time msg = Some (t_remaining t)) /\
  (is_Some (m_slice msg) <-> m_exec_time msg = None) /\
  (exists fila, dict_get sid (filas st) = Some fila /\
                dict_get sid (filas st') = Some (fila ++ [ITarefa msg])).
Proof.
  intros Ht H. apply atribuir_inv in H as (t0 & fila & s & Ht0 & _ & Hfila & _ & -> & ->).
  rewrite Ht in Ht0. injection Ht0 as <-.
  unfold construir_msg. simpl.
  destruct (String.eqb_spec policy "rr") as [->|Hne]; simpl.
  - repeat split; try done.
    + by rewrite py_min_Qmin.
    + exists fila. split; [done|]. by rewrite dict_get_set_eq.
  - repeat split; try done.
    exists fila. split; [done|]. by rewrite dict_get_set_eq.
Qed.

Lemma mensagem_slice_ou_exec_time_witness :
  let st := estado_inicial cfg_cenario 0 in
  exists sid msg st',
    st.(tarefas) !! 0%nat = Some (nova_tarefa 0 (req 1 1 5)) /\
    atribuir "rr" 2 0 st 0 (livres_de (estados st)) = Ok (sid, msg, st') /\
    m_slice msg = Some (Qmin 2 5) /\ m_exec_time msg = None.
Proof.
  intros st. eexists _, _, _.
  split; [reflexivity|]. split; [cbv; reflexivity|].
  edestruct (mensagem_slice_ou_exec_time "rr" 2 0 st 0 (livres_de (estados st)))
    as (_ & Hrr & _); [reflexivity | cbv; reflexivity | exact (Hrr eq_refl)].
Defined.

(** ** One response *)

Lemma primeira_com_id_Some ts pend id r :
  primeira_com_id ts pend id = Some r ->
  r ∈ pend /\ exists t, ts !! r = Some t /\ t_id t = id.
Proof.
  unfold primeira_com_id. intros H. apply find_some in H as [Hin Hid].
  split; [by apply list_elem_of_In|].
  unfold tem_id in Hid. destruct (ts !! r) as [t|]; [|done].
  exists t. split; [done|]. by apply Z.eqb_eq.
Qed.

Lemma primeira_com_id_None ts pend id r :
  primeira_com_id ts pend id = None -> r ∈ pend -> tem_id ts id r = false.
Proof.
  unfold primeira_com_id. intros H Hin.
  apply (find_none _ _ H). by apply list_elem_of_In.
Qed.

Lemma filter_todos {A} (f : A -> bool) (l : list A) :
  (forall x, x ∈ l -> f x = true) -> List.filter f l = l.
Proof.
  induction l as [|x l IH]; intros Hall; simpl; [done|].
  rewrite (Hall x) by by left. f_equal. apply IH. intros y Hy. apply Hall. by right.
Qed.

Lemma tem_id_insert ts id r0 r t t' :
  ts !! r0 = Some t -> t_id t' = t_id t ->
  tem_id (<[r0 := t']> ts) id r = tem_id ts id r.
Proof.
  intros Ht Hid. unfold tem_id.
  destruct (decide (r = r0)) as [->|Hne].
  - rewrite list_lookup_insert_eq by by eapply lookup_lt_Some. by rewrite Ht, Hid.
  - by rewrite list_lookup_insert_ne.
Qed.

Lemma tem_id_atualizar ts pend resp id r :
  tem_id (atualizar_tarefa ts pend resp) id r = tem_id ts id r.
Proof.
  unfold atualizar_tarefa.
  destruct (primeira_com_id ts pend (r_id resp)) as [r0|]; [|done].
  destruct (ts !! r0) as [t|] eqn:Ht; [|done].
  by apply tem_id_insert with t.
Qed.

(** What one pass of the drain loop does with a response from a known
    server for a pending task. *)
Lemma processar_resposta_efeitos start st resp now2 s r :
  dict_get (worker resp) (estados st) = Some s ->
  primeira_com_id (tarefas st) (pending st) (r_id resp) = Some r ->
  (Qeq_bool (r_remaining resp) 0 = true -> is_Some (dict_get (r_id resp) (completed st))) ->
  exists st' s' t',
    processar_resposta start st resp now2 = Ok st' /\
    (dict_get (worker resp) (estados st') = Some s' /\
     load s' = load s - 1 /\ busy s' = (busy s + duration resp)%Q /\ cap s' = cap s) /\
    (tarefas st' !! r = Some t' /\ t_id t' = r_id resp /\
     t_remaining t' = r_remaining resp /\ running t' = false) /\
    if Qeq_bool (r_remaining resp) 0 then
      (exists reg, dict_get (r_id resp) (completed st') = Some reg /\ r_end reg = Some now2) /\
      (r ∉ pending st') /\
      pending st' =
        List.filter (fun r' => negb (tem_id (tarefas st') (r_id resp) r')) (pending st) /\
      eventos st' = eventos st ++
        [EvConclusao (now2 - start) (worker resp) (r_id resp) (cpu resp) (memory resp)]
    else
      pending st' = pending st /\ r ∈ pending st' /\ completed st' = completed st /\
      eventos st' = eventos st ++
        [EvPreempcao (now2 - start) (worker resp) (r_id resp) (r_remaining resp)
                     (cpu resp) (memory resp)].
Proof.
  intros Hs Hfind Hreg.
  destruct (primeira_com_id_Some _ _ _ _ Hfind) as (Hin & t & Ht & Hid).
  assert (Hts : atualizar_tarefa (tarefas st) (pending st) resp !! r
                = Some (com_running false (com_remaining (r_remaining resp) t))).
  { unfold atualizar_tarefa. rewrite Hfind, Ht.
    apply list_lookup_insert_eq. by eapply lookup_lt_Some. }
  unfold processar_resposta. rewrite Hs. simpl.
  destruct (Qeq_bool (r_remaining resp) 0) eqn:Hzero.
  - destruct Hreg as [reg Hr]; [done|]. rewrite Hr. simpl.
    eexists _, _, _. split; [reflexivity|]. simpl.
    split; [by rewrite dict_get_set_eq|].
    split; [by rewrite Hts|].
    split; [rewrite dict_get_set_eq; by eexists|].
    split; [|done].
    intros Hr'. apply list_elem_of_In, filter_In in Hr' as [_ Hr'].
    unfold tem_id in Hr'. rewrite Hts in Hr'. simpl in Hr'.
    rewrite Hid, Z.eqb_refl in Hr'. done.
  - eexists _, _, _. split; [reflexivity|]. simpl.
    split; [by rewrite dict_get_set_eq|].
    split; [by rewrite Hts|]. done.
Qed.

Lemma drenar_app start st l1 l2 :
  drenar start st (l1 ++ l2) = (st1 <~ drenar start st l1; drenar start st1 l2).
Proof.
  revert st. induction l1 as [|[resp now2] l1 IH]; intros st; simpl; [done|].
  destruct (processar_resposta start st resp now2) as [st1|e]; simpl; [apply IH|done].
Qed.

(** C3: for every response of a drain, wherever it stands among the
    drained responses: when the responses before it have been processed,
    and it comes from a known server for a pending task (whose record
    exists when its remaining work is 0), the drain goes on through it and
    continues with the responses after it; on the way it lowers that
    server's load by 1, adds the response's duration to the server's busy
    time and stores the response's remaining work in the task, which stops
    running; with remaining work 0 it also closes the task's record at the
    clock reading, removes the task from the pending list and prints the
    completion line; otherwise it prints the preemption line and the task
    stays pending. *)
Theorem drenar_efeitos start st pre resp now2 pos st1 s r :
  drenar start st pre = Ok st1 ->
  dict_get (worker resp) (estados st1) = Some s ->
  primeira_com_id (tarefas st1) (pending st1) (r_id resp) = Some r ->
  (Qeq_bool (r_remaining resp) 0 = true -> is_Some (dict_get (r_id resp) (completed st1))) ->
  exists st2 s' t',
    drenar start st (pre ++ [(resp, now2)]) = Ok st2 /\
    drenar start st (pre ++ (resp, now2) :: pos) = drenar start st2 pos /\
    (dict_get (worker resp) (estados st2) = Some s' /\
     load s' = load s - 1 /\ busy s' = (busy s + duration resp)%Q /\ cap s' = cap s) /\
    (tarefas st2 !! r = Some t' /\ t_id t' = r_id resp /\
     t_remaining t' = r_remaining resp /\ running t' = false) /\
    if Qeq_bool (r_remaining resp) 0 then
      (exists reg, dict_get (r_id resp) (completed st2) = Some reg /\ r_end reg = Some now2) /\
      (r ∉ pending st2) /\
      pending st2 =
        List.filter (fun r' => negb (tem_id (tarefas st2) (r_id resp) r')) (pending st1) /\
      eventos st2 = eventos st1 ++
        [EvConclusao (now2 - start) (worker resp) (r_id resp) (cpu resp) (memory resp)]
    else
      pending st2 = pending st1 /\ r ∈ pending st2 /\ completed st2 = completed st1 /\
      eventos st2 = eventos st1 ++
        [EvPreempcao (now2 - start) (worker resp) (r_id resp) (r_remaining resp)
                     (cpu resp) (memory resp)].
Proof.
  intros Hpre Hs Hfind Hreg.
  destruct (processar_resposta_efeitos start st1 resp now2 s r Hs Hfind Hreg)
    as (st2 & s' & t' & Hproc & Hserv & Htask & Hfim).
  exists st2, s', t'.
  assert (Hum : drenar start st (pre ++ [(resp, now2)]) = Ok st2).
  { rewrite drenar_app, Hpre. cbn [ligar drenar]. by rewrite Hproc. }
  split; [exact Hum|]. split; [|done].
  change (pre ++ (resp, now2) :: pos) with (pre ++ [(resp, now2)] ++ pos).
  by rewrite app_assoc, drenar_app, Hum.
Qed.

Lemma drenar_efeitos_witness :
  let st := {| pending := [0%nat];
               tarefas := [com_running true (nova_tarefa 0 (req 1 1 4))];
               estados := [(1, {| cap := 1; load := 1; busy := 0 |})];
               completed := [(1, {| arrival := 0; r_end := None |})];
               filas := [(1, [])];
               eventos := [] |} in
  exists st1 st2,
    drenar 0 st [(resposta_desconhecida, 1%Q)] = Ok st1 /\
    dict_get (worker resposta_final) (estados st1) = Some {| cap := 1; load := 0; busy := 1 |} /\
    primeira_com_id (tarefas st1) (pending st1) (r_id resposta_final) = Some 0%nat /\
    drenar 0 st [(resposta_desconhecida, 1%Q); (resposta_final, 4%Q)] = Ok st2 /\
    dict_get 1 (estados st2) = Some {| cap := 1; load := -1; busy := 1 + 4 |} /\
    pending st2 = [].
Proof.
  intros st.
  assert (H1 : exists st1, drenar 0 st [(resposta_desconhecida, 1%Q)] = Ok st1)
    by (eexists; cbv; reflexivity).
  destruct H1 as [st1 H1]. exists st1.
  assert (Hs : dict_get (worker resposta_final) (estados st1)
               = Some {| cap := 1; load := 0; busy := 1 |}).
  { cbv in H1. injection H1 as <-. reflexivity. }
  assert (Hf : primeira_com_id (tarefas st1) (pending st1) (r_id resposta_final) = Some 0%nat).
  { cbv in H1. injection H1 as <-. reflexivity. }
  destruct (drenar_efeitos 0 st [(resposta_desconhecida, 1%Q)] resposta_final 4 [] st1
              {| cap := 1; load := 0; busy := 1 |} 0%nat H1 Hs Hf)
    as (st2 & s' & t' & Hd & _ & (Hs' & Hload & Hbusy & Hcap) & _ & Hfim).
  { intros _. cbv in H1. injection H1 as <-. by eexists. }
  exists st2. split; [exact H1|]. split; [exact Hs|]. split; [exact Hf|].
  split; [exact Hd|]. cbv in Hd. injection Hd as <-. split; reflexivity.
Defined.

(** C9 (as stated): a response whose task id is the id of no pending task,
    with remaining work other than 0, is processed without any error. *)
Lemma resposta_desconhecida_sem_erro :
  let st := estado_inicial cfg_cenario 0 in
  primeira_com_id (tarefas st) (pending st) (r_id resposta_desconhecida) = None /\
  exists st', processar_resposta 0 st resposta_desconhecida 1 = Ok st'.
Proof.
  split; [reflexivity|]. eexists. reflexivity.
Qed.

(** C9 (amended): a response from a known server whose task id is the id of
    no pending task raises an error ([KeyError]) only when its remaining
    work is 0 and no completion record exists for its id; in every other
    case it is processed normally: no task and no pending entry changes,
    and the preemption line (remaining work other than 0) or the completion
    line (remaining work 0) is printed. *)
Theorem resposta_sem_tarefa_pendente start st resp now2 s :
  primeira_com_id (tarefas st) (pending st) (r_id resp) = None ->
  dict_get (worker resp) (estados st) = Some s ->
  (Qeq_bool (r_remaining resp) 0 = true -> dict_get (r_id resp) (completed st) = None ->
     processar_resposta start st resp now2 = Erro KeyError) /\
  (Qeq_bool (r_remaining resp) 0 = false \/ is_Some (dict_get (r_id resp) (completed st)) ->
     exists st',
       processar_resposta start st resp now2 = Ok st' /\
       tarefas st' = tarefas st /\
       pending st' = pending st /\
       eventos st' = eventos st ++
         [if Qeq_bool (r_remaining resp) 0
          then EvConclusao (now2 - start) (worker resp) (r_id resp) (cpu resp) (memory resp)
          else EvPreempcao (now2 - start) (worker resp) (r_id resp) (r_remaining resp)
                           (cpu resp) (memory resp)]).
Proof.
  intros Hnone Hs. unfold processar_resposta. rewrite Hs. simpl.
  assert (Hts : atualizar_tarefa (tarefas st) (pending st) resp = tarefas st).
  { unfold atualizar_tarefa. by rewrite Hnone. }
  rewrite Hts. split.
  - intros -> ->. done.
  - intros Hcase. destruct (Qeq_bool (r_remaining resp) 0) eqn:Hzero.
    + destruct Hcase as [?|[reg Hreg]]; [done|]. rewrite Hreg. simpl.
      eexists. split; [reflexivity|]. simpl. split; [done|]. split; [|done].
      apply filter_todos. intros r Hr.
      by rewrite (primeira_com_id_None _ _ _ _ Hnone Hr).
    + eexists. split; [reflexivity|]. done.
Qed.

Lemma resposta_sem_tarefa_pendente_witness :
  let st := estado_inicial cfg_cenario 0 in
  primeira_com_id (tarefas st) (pending st) (r_id resposta_desconhecida) = None /\
  dict_get (worker resposta_desconhecida) (estados st)
    = Some {| cap := 1; load := 0; busy := 0 |} /\
  exists st', processar_resposta 0 st resposta_desconhecida 1 = Ok st' /\
              pending st' = pending st.
Proof.
  intros st. split; [reflexivity|]. split; [reflexivity|].
  destruct (resposta_sem_tarefa_pendente 0 st resposta_desconhecida 1
              {| cap := 1; load := 0; busy := 0 |} eq_refl eq_refl) as [_ Hok].
  destruct Hok as (st' & Hst' & _ & Hpend & _); [by left|].
  by exists st'.
Defined.

(** ** Final metrics *)

Lemma dividir_nao_zero a b : ~ (b == 0)%Q -> dividir a b = Ok (a / b)%Q.
Proof.
  intros Hb. unfold dividir.
  destruct (Qeq_bool b 0) eqn:Hz; [|done].
  apply Qeq_bool_iff in Hz. done.
Qed.

Lemma py_len_nao_zero {A} (l : list A) : l <> [] -> ~ (py_len l == 0)%Q.
Proof.
  destruct l as [|x l]; [done|]. intros _. unfold py_len, Qeq. simpl. lia.
Qed.

Lemma para_cada_map {A B} (f : A -> Resultado B) (g : A -> B) (l : list A) :
  (forall x, x ∈ l -> f x = Ok (g x)) -> para_cada f l = Ok (map g l).
Proof.
  induction l as [|x l IH]; intros Hall; simpl; [done|].
  rewrite (Hall x) by by left. simpl. rewrite IH; [done|].
  intros y Hy. apply Hall. by right.
Qed.

Lemma py_len_map {A B} (f : A -> B) (l : list A) : py_len (map f l) = py_len l.
Proof. unfold py_len. by rewrite length_map. Qed.

Lemma para_cada_fusao {A B C} (f : B -> Resultado C) (g : A -> B) (l : list A) :
  para_cada f (map g l) = para_cada (fun x => f (g x)) l.
Proof.
  induction l as [|x l IH]; simpl; [done|]. by rewrite IH.
Qed.

Lemma para_cada_length {A B} (f : A -> Resultado B) (l : list A) (ys : list B) :
  para_cada f l = Ok ys -> length ys = length l.
Proof.
  revert ys. induction l as [|x l IH]; intros ys; simpl.
  - by intros [= <-].
  - destruct (f x) as [y|e]; simpl; [|done].
    destruct (para_cada f l) as [ys'|e]; simpl; [|done].
    intros [= <-]. simpl. by rewrite (IH ys').
Qed.

Lemma dividir_por_len_Q (x : Q) (n : nat) :
  dividir x (inject_Z (Z.of_nat n)) = dividir_por_len arit_Q x n.
Proof. by destruct n. Qed.

(** The metrics of the run are [metricas_em] over the rationals. *)
Lemma metricas_em_Q comp est total :
  metricas comp est total
  = (r <~ metricas_em arit_Q (map (fun c => (arrival c, r_end c)) (dict_values comp))
                      (map busy (dict_values est)) total;
     Ok {| tempo_medio := fst (fst r); throughput := snd (fst r); utilizacao := snd r |}).
Proof.
  unfold metricas, metricas_em, py_len. rewrite !para_cada_fusao.
  unfold dict_values. rewrite !length_map. cbn [fst snd arit_Q num n_sub n_mul n_de_nat].
  destruct (para_cada _ (map snd comp)) as [tempos|e] eqn:Ht; cbn [ligar]; [|done].
  rewrite dividir_por_len_Q.
  destruct (dividir_por_len arit_Q _ (length tempos)) as [avg|e]; cbn [ligar]; [|done].
  change (dividir_em arit_Q ?a ?b) with (dividir a b).
  destruct (dividir _ total) as [thr|e]; cbn [ligar]; [|done].
  destruct (para_cada _ (map snd est)) as [us|e] eqn:Hu; cbn [ligar]; [|done].
  rewrite dividir_por_len_Q.
  by destruct (dividir_por_len arit_Q _ (length est)) as [util|e].
Qed.

(** C4: over any numbers, binary64 floats included, with every record
    closed, at least one record, at least one server and a total time that
    is not zero, the metrics are the average of [end - arrival] over the
    records, the number of records over the total time, and the average
    over the servers of [busy / total * 100], each sum taken in the order
    [sum] takes it; in binary64, one record with arrival 0 and end 4 and
    total time 4 give the mean 4.0 and the throughput 0.25; and the metrics
    a run returns are these, over the rationals of the model. *)
Theorem metricas_formulas :
  (forall (A : Aritmetica) regs busys (total : num A),
     regs <> [] -> busys <> [] -> n_eh_zero A total = false ->
     (forall c, c ∈ regs -> is_Some (snd c)) ->
     metricas_em A regs busys total
     = Ok (media_em A (map (tempo_em A) regs),
           n_div A (n_de_nat A (length regs)) total,
           media_em A (map (ocupacao_em A total) busys))) /\
  (forall busys : list float, busys <> [] ->
     exists util,
       metricas_em arit_float [(0%float, Some 4%float)] busys 4%float
       = Ok (4%float, 0.25%float, util)) /\
  (forall comp est total,
     metricas comp est total
     = (r <~ metricas_em arit_Q (map (fun c => (arrival c, r_end c)) (dict_values comp))
                         (map busy (dict_values est)) total;
        Ok {| tempo_medio := fst (fst r); throughput := snd (fst r); utilizacao := snd r |})).
Proof.
  assert (Hgeral : forall (A : Aritmetica) regs busys (total : num A),
     regs <> [] -> busys <> [] -> n_eh_zero A total = false ->
     (forall c, c ∈ regs -> is_Some (snd c)) ->
     metricas_em A regs busys total
     = Ok (media_em A (map (tempo_em A) regs),
           n_div A (n_de_nat A (length regs)) total,
           media_em A (map (ocupacao_em A total) busys))).
  { intros A regs busys total Hregs Hbusys Htotal Hclosed. unfold metricas_em.
    rewrite (para_cada_map _ (tempo_em A)).
    2:{ intros c Hc. destruct (Hclosed c Hc) as [e He].
        unfold tempo_em. rewrite He. reflexivity. }
    cbn [ligar]. unfold media_em. rewrite !length_map.
    destruct regs as [|c0 regs]; [done|]. cbn [dividir_por_len ligar length].
    unfold dividir_em at 1. rewrite Htotal. cbn [ligar].
    rewrite (para_cada_map _ (ocupacao_em A total)).
    2:{ intros b _. unfold dividir_em. rewrite Htotal. reflexivity. }
    cbn [ligar]. rewrite ?length_map.
    destruct busys as [|b0 busys]; [done|]. reflexivity. }
  split; [exact Hgeral|]. split; [|exact metricas_em_Q].
  intros busys Hbusys. eexists.
  rewrite (Hgeral arit_float [(0%float, Some 4%float)] busys 4%float);
    [|discriminate|done|reflexivity|].
  - reflexivity.
  - intros c Hc. apply list_elem_of_singleton in Hc as ->. by eexists.
Qed.

(** In binary64: one record with arrival 0 and end 4, one server busy for
    the whole of the total time 4. *)
Lemma metricas_formulas_witness :
  metricas_em arit_float [(0%float, Some 4%float)] [4%float] 4%float
  = Ok (4%float, 0.25%float, 100%float).
Proof.
  rewrite (proj1 metricas_formulas arit_float [(0%float, Some 4%float)] [4%float] 4%float);
    [reflexivity|discriminate|discriminate|reflexivity|].
  intros c Hc. apply list_elem_of_singleton in Hc as ->. by eexists.
Defined.

(** ** Runs without requests *)

Lemma vagas_livres est : livres_de est <> [] -> vagas est <> 0%nat.
Proof.
  unfold livres_de, vagas. induction est as [|[k s] est IH]; simpl; [done|].
  unfold tem_vaga at 1. simpl.
  destruct (Z.ltb_spec (load s) (cap s)) as [Hlt|Hge]; simpl.
  - intros _. lia.
  - intros H. specialize (IH H). lia.
Qed.

Lemma atribuir_tarefas_sem_tarefas sched policy quantum elapsed st eleg :
  tarefas st = [] ->
  atribuir_tarefas sched policy quantum (vagas (estados st)) elapsed st eleg
                   (livres_de (estados st)) = Some (Ok st)
  \/ exists e, atribuir_tarefas sched policy quantum (vagas (estados st)) elapsed st eleg
                 (livres_de (estados st)) = Some (Erro e).
Proof.
  intros Hts. pose proof (vagas_livres (estados st)) as Hv.
  destruct (vagas (estados st)) as [|fuel];
    destruct eleg as [|r0 eleg]; [by left|..|by left|].
  { destruct (livres_de (estados st)) as [|l0 livres]; [by left|].
    exfalso. by apply Hv. }
  destruct (livres_de (estados st)) as [|l0 livres]; [by left|].
  right. simpl.
  destruct (next_task sched (tarefas st) (r0 :: eleg)) as [[r eleg']|e]; [|by eexists].
  unfold atribuir. rewrite Hts. simpl. by eexists.
Qed.

Lemma drenar_sem_registros start st st' resps :
  pending st = [] -> completed st = [] ->
  drenar start st resps = Ok st' ->
  pending st' = [] /\ completed st' = [].
Proof.
  revert st. induction resps as [|[resp now2] resps IH]; intros st Hp Hc; simpl.
  - by intros [= <-].
  - unfold processar_resposta.
    destruct (dict_get (worker resp) (estados st)) as [s|]; simpl; [|done].
    destruct (Qeq_bool (r_remaining resp) 0).
    + rewrite Hc. simpl. done.
    + simpl. apply IH; simpl; done.
Qed.

Lemma metricas_sem_registros est total : metricas [] est total = Erro ZeroDivisionError.
Proof. reflexivity. Qed.

Lemma ciclos_sem_tarefas sched policy quantum start st c obs :
  tarefas st = [] -> pending st = [] -> completed st = [] ->
  (exists e, ciclos sched policy quantum start st (c :: obs) = Some (Erro e)) \/
  (exists st2, ciclos sched policy quantum start st (c :: obs) = Some (Ok st2) /\
               completed st2 = []).
Proof.
  intros Hts Hp Hc. cbn [ciclos].
  destruct (atribuir_tarefas_sem_tarefas sched policy quantum (c_now c - start)%Q st
              (reorder sched (tarefas st) (elegiveis_de st)) Hts) as [-> | [e ->]];
    [|left; by eexists].
  destruct (drenar start st (c_resps c)) as [st2|e] eqn:Hd; [|left; by eexists].
  destruct (drenar_sem_registros _ _ _ _ Hp Hc Hd) as [Hp2 Hc2].
  unfold condicao_parada. rewrite Hp2. cbn [forallb].
  right. by exists st2.
Qed.

(** C10: with an empty request list a run that gets through its first cycle
    never returns a result: it ends in an error, and when the scheduler
    leaves the empty list empty and no response is waiting, the error is
    the division by zero of the mean response time. *)
Theorem executar_politica_sem_requisicoes sched policy cfg amb c obs :
  requisicoes cfg = [] ->
  amb_ciclos amb = c :: obs ->
  (exists e, executar_politica sched policy cfg amb = Some (Erro e)) /\
  (reorder sched [] [] = [] -> c_resps c = [] ->
     executar_politica sched policy cfg amb = Some (Erro ZeroDivisionError)).
Proof.
  intros Hreq Hobs. unfold executar_politica. rewrite Hobs.
  assert (Hts : tarefas (estado_inicial cfg (amb_start amb)) = []).
  { unfold estado_inicial. cbn [tarefas]. by rewrite Hreq. }
  assert (Hp : pending (estado_inicial cfg (amb_start amb)) = []).
  { unfold estado_inicial. cbn [pending]. by rewrite Hreq. }
  assert (Hc : completed (estado_inicial cfg (amb_start amb)) = []) by done.
  split.
  - destruct (ciclos_sem_tarefas sched policy (quantum cfg) (amb_start amb) _ c obs Hts Hp Hc)
      as [[e ->] | (st2 & -> & Hc2)]; [by eexists|].
    rewrite Hc2, metricas_sem_registros. by eexists.
  - intros Hre Hresps. cbn [ciclos].
    unfold elegiveis_de. rewrite Hts, Hp. cbn [List.filter]. rewrite Hre.
    destruct (vagas (estados (estado_inicial cfg (amb_start amb)))); cbn [atribuir_tarefas];
      rewrite Hresps; cbn [drenar]; unfold condicao_parada; rewrite Hp; cbn [forallb];
      by rewrite Hc, metricas_sem_registros.
Qed.

Lemma executar_politica_sem_requisicoes_witness :
  requisicoes cfg_sem_requisicoes = [] /\
  executar_politica scheduler_rr "rr" cfg_sem_requisicoes amb_um_ciclo
    = Some (Erro ZeroDivisionError).
Proof.
  split; [reflexivity|].
  apply (executar_politica_sem_requisicoes scheduler_rr "rr" cfg_sem_requisicoes amb_um_ciclo
           {| c_now := 0; c_resps := [] |} []); reflexivity.
Defined.

(** ** Shape of the state after a response *)

Lemma processar_resposta_inv start st resp now2 st' :
  processar_resposta start st resp now2 = Ok st' ->
  exists s,
    dict_get (worker resp) (estados st) = Some s /\
    tarefas st' = atualizar_tarefa (tarefas st) (pending st) resp /\
    estados st' = dict_set (worker resp)
                    (com_load (load s - 1) (com_busy (busy s + duration resp) s)) (estados st) /\
    filas st' = filas st /\
    ((Qeq_bool (r_remaining resp) 0 = true /\
      pending st' = List.filter (fun r => negb (tem_id (tarefas st') (r_id resp) r)) (pending st))
     \/
     (Qeq_bool (r_remaining resp) 0 = false /\
      pending st' = pending st /\ completed st' = completed st)).
Proof.
  unfold processar_resposta. intros H.
  destruct (dict_get (worker resp) (estados st)) as [s|] eqn:Hs; simpl in H; [|done].
  exists s. split; [done|].
  destruct (Qeq_bool (r_remaining resp) 0) eqn:Hz.
  - destruct (dict_get (r_id resp) (completed st)) as [reg|]; simpl in H; [|done].
    injection H as <-. simpl. split; [done|]. split; [done|]. split; [done|]. by left.
  - injection H as <-. simpl. split; [done|]. split; [done|]. split; [done|]. by right.
Qed.

Lemma atualizar_tarefa_lookup ts pend resp r t' :
  atualizar_tarefa ts pend resp !! r = Some t' ->
  exists t,
    ts !! r = Some t /\
    ((primeira_com_id ts pend (r_id resp) = Some r /\
      t' = com_running false (com_remaining (r_remaining resp) t))
     \/ (primeira_com_id ts pend (r_id resp) <> Some r /\ t' = t)).
Proof.
  unfold atualizar_tarefa.
  destruct (primeira_com_id ts pend (r_id resp)) as [r0|] eqn:Hfind.
  - destruct (ts !! r0) as [t0|] eqn:Ht0.
    + destruct (decide (r = r0)) as [->|Hne].
      * rewrite list_lookup_insert_eq by by eapply lookup_lt_Some.
        intros [= <-]. exists t0. split; [done|]. by left.
      * rewrite list_lookup_insert_ne by done. intros Ht. exists t'.
        split; [done|]. right. split; [congruence|done].
    + intros Ht. exists t'. split; [done|]. right. split; [congruence|done].
  - intros Ht. exists t'. split; [done|]. right. done.
Qed.

Lemma atualizar_tarefa_lookup_fwd ts pend resp r t :
  ts !! r = Some t ->
  exists t', atualizar_tarefa ts pend resp !! r = Some t'.
Proof.
  intros Ht. apply lookup_lt_is_Some.
  assert (length (atualizar_tarefa ts pend resp) = length ts) as ->.
  { unfold atualizar_tarefa.
    destruct (primeira_com_id ts pend (r_id resp)) as [r0|]; [|done].
    destruct (ts !! r0); [|done]. by rewrite length_insert. }
  by eapply lookup_lt_Some.
Qed.

Lemma lookup_map {A B} (f : A -> B) (l : list A) (i : nat) :
  map f l !! i = f <$> (l !! i).
Proof.
  revert i. induction l as [|x l IH]; intros [|i]; simpl; done.
Qed.

(** ** The stop condition *)

Lemma pendentes_com_trabalho_inicial cfg start :
  (forall q, q ∈ requisicoes cfg -> (0 < tempo_exec q)%Q) ->
  pendentes_com_trabalho (estado_inicial cfg start).
Proof.
  intros Hpos r Hr. simpl in *.
  apply elem_of_seq in Hr.
  destruct (lookup_lt_is_Some_2 (requisicoes cfg) r) as [q Hq]; [lia|].
  exists (nova_tarefa start q). rewrite lookup_map, Hq. split; [done|].
  simpl. intros Hz. specialize (Hpos q (list_elem_of_lookup_2 _ _ _ Hq)).
  rewrite Hz in Hpos. by apply Qlt_irrefl in Hpos.
Qed.

Lemma pendentes_com_trabalho_atribuir policy quantum elapsed st r livres sid msg st' :
  atribuir policy quantum elapsed st r livres = Ok (sid, msg, st') ->
  pendentes_com_trabalho st -> pendentes_com_trabalho st'.
Proof.
  intros H Hinv. apply atribuir_inv in H as (t & fila & s & Ht & _ & _ & _ & _ & ->).
  intros r' Hr'. simpl in *. destruct (Hinv r' Hr') as (t' & Ht' & Hrem).
  destruct (decide (r' = r)) as [->|Hne].
  - rewrite list_lookup_insert_eq by by eapply lookup_lt_Some.
    eexists. split; [done|]. simpl. congruence.
  - rewrite list_lookup_insert_ne by done. by exists t'.
Qed.

Lemma pendentes_com_trabalho_resposta start st resp now2 st' :
  processar_resposta start st resp now2 = Ok st' ->
  pendentes_com_trabalho st -> pendentes_com_trabalho st'.
Proof.
  intros H Hinv. apply processar_resposta_inv in H as (s & _ & Hts & _ & _ & Hcase).
  intros r Hr.
  assert (Hr0 : r ∈ pending st).
  { destruct Hcase as [[_ Hp]|[_ [Hp _]]]; rewrite Hp in Hr; [|done].
    apply list_elem_of_In, filter_In in Hr as [Hr _]. by apply list_elem_of_In. }
  destruct (Hinv r Hr0) as (t & Ht & Hrem).
  destruct (atualizar_tarefa_lookup_fwd _ (pending st) resp _ _ Ht) as [t' Ht'].
  exists t'. rewrite Hts. split; [done|].
  destruct (atualizar_tarefa_lookup _ _ _ _ _ Ht') as (t0 & Ht0 & Hupd).
  rewrite Ht in Ht0. injection Ht0 as <-.
  destruct Hupd as [[Hfind ->]|[_ ->]]; [|done].
  simpl. destruct Hcase as [[Hz Hp]|[Hz _]].
  - exfalso. rewrite Hp in Hr. apply list_elem_of_In, filter_In in Hr as [_ Hr].
    rewrite Hts, tem_id_atualizar in Hr.
    apply primeira_com_id_Some in Hfind as (_ & t1 & Ht1 & Hid).
    unfold tem_id in Hr. rewrite Ht1, Hid, Z.eqb_refl in Hr. done.
  - intros Heq. apply Qeq_bool_iff in Heq. congruence.
Qed.

Lemma alcancavel_pendentes_com_trabalho sched policy cfg start amb p :
  (forall q, q ∈ requisicoes cfg -> (0 < tempo_exec q)%Q) ->
  alcancavel sched policy cfg start amb p ->
  pendentes_com_trabalho (p_sim p).
Proof.
  intros Hpos Halc. induction Halc as [now|p p' _ IH Hpasso]; simpl.
  - by apply pendentes_com_trabalho_inicial.
  - destruct Hpasso; simpl in *; try done.
    + by eapply pendentes_com_trabalho_atribuir.
    + by eapply pendentes_com_trabalho_resposta.
Qed.

Lemma parada_pending_vazio st :
  pendentes_com_trabalho st -> condicao_parada st = true -> pending st = [].
Proof.
  intros Hinv. unfold condicao_parada.
  destruct (pending st) as [|r l] eqn:Hp; [done|]. simpl.
  intros Hand. apply andb_prop in Hand as [Hr _].
  destruct (Hinv r) as (t & Ht & Hrem); [rewrite Hp; by left|].
  unfold terminada in Hr. rewrite Ht in Hr. by apply Qeq_bool_iff in Hr.
Qed.



(** ** The chosen server is a free server *)

Lemma para_cada_cargas_inv est l ks :
  para_cada (fun x => s <~ exigir KeyError (dict_get x est); Ok (x, load s)) l = Ok ks ->
  forall x, x ∈ l -> is_Some (dict_get x est).
Proof.
  revert ks. induction l as [|y l IH]; intros ks H x Hx; simpl in H.
  - by apply elem_of_nil in Hx.
  - destruct (dict_get y est) as [s|] eqn:Hy; simpl in H; [|done].
    destruct (para_cada _ l) as [ks'|] eqn:Hl; simpl in H; [|done].
    apply elem_of_cons in Hx as [->|Hx]; [by eexists|]. by eapply IH.
Qed.

Lemma menos_carregado_inv est l sid :
  menos_carregado est l = Ok sid -> primeiro_minimo est l sid.
Proof.
  intros H.
  assert (Hne : l <> []) by (intros ->; done).
  assert (Hall : forall x, x ∈ l -> is_Some (dict_get x est)).
  { unfold menos_carregado in H. destruct l as [|b l]; [done|].
    destruct (para_cada _ (b :: l)) as [ks|] eqn:Hks; [|done].
    by eapply para_cada_cargas_inv. }
  destruct (menos_carregado_primeiro est l Hne Hall) as (sid' & Hsid' & Hmin).
  congruence.
Qed.

Lemma escolher_elem est t livres sid : escolher est t livres = Ok sid -> sid ∈ livres.
Proof.
  unfold escolher. destruct (last_worker t) as [lw|].
  - destruct (candidatos_de lw livres) as [|c cs] eqn:Hc.
    + intros H. by eapply primeiro_minimo_elem, menos_carregado_inv.
    + intros H. apply menos_carregado_inv, primeiro_minimo_elem in H.
      rewrite <- Hc in H. by apply candidatos_de_elem in H as [? _].
  - intros H. by eapply primeiro_minimo_elem, menos_carregado_inv.
Qed.

Lemma livres_de_vaga est x s :
  NoDup (dict_keys est) -> x ∈ livres_de est -> dict_get x est = Some s -> load s < cap s.
Proof.
  intros Hnd Hx Hs. unfold livres_de in Hx.
  apply list_elem_of_In, in_map_iff in Hx as ([k s'] & <- & Hin).
  apply filter_In in Hin as [Hin Hvaga]. simpl in Hs.
  apply list_elem_of_In in Hin. rewrite (dict_elem_get _ _ _ Hnd Hin) in Hs.
  injection Hs as <-. unfold tem_vaga in Hvaga. simpl in Hvaga. lia.
Qed.

(** ** The capacity bound *)



Lemma estados_iniciais_inv ss :
  (forall sv, sv ∈ ss -> 0 <= capacidade sv) ->
  NoDup (dict_keys (estados_iniciais ss)) /\
  forall k s, dict_get k (estados_iniciais ss) = Some s -> load s = 0 /\ 0 <= cap s.
Proof.
  unfold estados_iniciais. intros Hcap.
  assert (Hgen : forall d : list (Z * Estado),
    NoDup (dict_keys d) /\ (forall k s, dict_get k d = Some s -> load s = 0 /\ 0 <= cap s) ->
    let d' := fold_left (fun d s => dict_set (s_id s)
                {| cap := capacidade s; load := 0; busy := 0%Q |} d) ss d in
    NoDup (dict_keys d') /\ (forall k s, dict_get k d' = Some s -> load s = 0 /\ 0 <= cap s)).
  { induction ss as [|sv ss IH]; intros d [Hnd Hd]; simpl; [done|].
    apply IH.
    - intros sv' Hsv'. apply Hcap. by right.
    - split; [by apply dict_keys_set_NoDup|].
      intros k s. destruct (decide (s_id sv = k)) as [<-|Hne].
      + rewrite dict_get_set_eq. intros [= <-]. simpl. split; [done|].
        apply Hcap. by left.
      + rewrite dict_get_set_ne by done. apply Hd. }
  apply (Hgen []). split; [apply NoDup_nil_2|]. done.
Qed.







(** ** One outstanding dispatch per task *)





Lemma insert_preserva_id (ts : list Tarefa) (r : nat) t t2 r0 t0 :
  ts !! r = Some t -> t_id t2 = t_id t -> ts !! r0 = Some t0 ->
  exists t0', <[r := t2]> ts !! r0 = Some t0' /\ t_id t0' = t_id t0.
Proof.
  intros Ht Hid Ht0. destruct (decide (r0 = r)) as [->|Hne].
  - exists t2. rewrite list_lookup_insert_eq by by eapply lookup_lt_Some.
    split; [done|]. congruence.
  - exists t0. by rewrite list_lookup_insert_ne.
Qed.


Lemma elegivel_parado t : elegivel t = true -> running t = false.
Proof. unfold elegivel. destruct (running t); [done|done]. Qed.

Lemma ref_elegivel_Some ts r :
  ref_elegivel ts r = true -> exists t, ts !! r = Some t /\ running t = false.
Proof.
  unfold ref_elegivel. destruct (ts !! r) as [t|]; [|done].
  intros H. exists t. split; [done|]. by apply elegivel_parado.
Qed.







Lemma contrato_rr : contrato scheduler_rr.
Proof.
  split; simpl; [done|].
  intros _ [|r0 l] r l'; [done|]. by intros [= <- <-].
Qed.


(** ** The assignment loop ends within its fuel *)

Lemma vagas_set est k s s' :
  dict_get k est = Some s -> load s < cap s -> cap s' = cap s -> load s' = load s + 1 ->
  NoDup (dict_keys est) ->
  vagas est = S (vagas (dict_set k s' est)).
Proof.
  unfold dict_keys. induction est as [|[k0 s0] est IH]; simpl; [done|].
  intros Hget Hlt Hcap Hload Hnd. apply NoDup_cons in Hnd as [Hk0 Hnd].
  destruct (Z.eqb_spec k k0) as [->|Hne]; simpl.
  - injection Hget as ->. rewrite Hcap, Hload. lia.
  - rewrite (IH Hget Hlt Hcap Hload Hnd). lia.
Qed.

Lemma atribuir_tarefas_termina sched policy quantum elapsed fuel st eleg :
  NoDup (dict_keys (estados st)) ->
  (vagas (estados st) <= fuel)%nat ->
  exists res,
    atribuir_tarefas sched policy quantum fuel elapsed st eleg (livres_de (estados st))
    = Some res.
Proof.
  revert st eleg. induction fuel as [|fuel IH]; intros st eleg Hnd Hfuel.
  - destruct eleg as [|r0 eleg]; [by eexists|].
    destruct (livres_de (estados st)) as [|l0 livres] eqn:Hl; [by eexists|].
    exfalso. apply (vagas_livres (estados st)); [by rewrite Hl|lia].
  - destruct eleg as [|r0 eleg]; [by eexists|].
    destruct (livres_de (estados st)) as [|l0 livres] eqn:Hl; [by eexists|].
    cbn [atribuir_tarefas].
    destruct (next_task sched (tarefas st) (r0 :: eleg)) as [[r eleg']|e]; [|by eexists].
    destruct (atribuir policy quantum elapsed st r (l0 :: livres)) as [[[sid msg] st']|e] eqn:Hatr;
      [|by eexists].
    rewrite <- Hl in Hatr.
    apply atribuir_inv in Hatr as (t & fila & s & _ & Hesc & _ & Hs & _ & ->).
    cbn [estados]. apply IH; cbn [estados].
    + by apply dict_keys_set_NoDup.
    + apply escolher_elem in Hesc.
      pose proof (livres_de_vaga _ _ _ Hnd Hesc Hs) as Hlt.
      rewrite (vagas_set (estados st) sid s (com_load (load s + 1) s)) in Hfuel by done.
      lia.
Qed.

(** ** The loops follow the transition system *)

Section Execucao.
Variable sched : Scheduler.
Variable policy : string.
Variable cfg : Config.
Variable start : Q.

Lemma atribuir_tarefas_alcancavel
    (amb : list (Z * Msg) -> Resposta -> list (Z * Msg) -> Prop)
    fuel elapsed st eleg voo st' :
  alcancavel sched policy cfg start amb
    {| p_sim := st; p_fase := Atribuindo elapsed eleg; em_voo := voo |} ->
  atribuir_tarefas sched policy (quantum cfg) fuel elapsed st eleg (livres_de (estados st))
  = Some (Ok st') ->
  exists voo', alcancavel sched policy cfg start amb
                 {| p_sim := st'; p_fase := Drenando; em_voo := voo' |}.
Proof.
  revert st eleg voo. induction fuel as [|fuel IH]; intros st eleg voo Halc Hrun.
  - exists voo. destruct eleg as [|r0 eleg].
    + injection Hrun as <-. eapply alc_passo; [exact Halc|].
      apply passo_fim_atribuicao. by left.
    + destruct (livres_de (estados st)) as [|l0 livres] eqn:Hl; [|done].
      injection Hrun as <-. eapply alc_passo; [exact Halc|].
      apply passo_fim_atribuicao. by right.
  - destruct eleg as [|r0 eleg].
    { exists voo. injection Hrun as <-. eapply alc_passo; [exact Halc|].
      apply passo_fim_atribuicao. by left. }
    destruct (livres_de (estados st)) as [|l0 livres] eqn:Hl.
    { exists voo. injection Hrun as <-. eapply alc_passo; [exact Halc|].
      apply passo_fim_atribuicao. by right. }
    cbn [atribuir_tarefas] in Hrun.
    destruct (next_task sched (tarefas st) (r0 :: eleg)) as [[r eleg']|e] eqn:Hnt; [|done].
    destruct (atribuir policy (quantum cfg) elapsed st r (l0 :: livres))
      as [[[sid msg] st1]|e] eqn:Hatr; [|done].
    apply (IH st1 eleg' (voo ++ [(sid, msg)])); [|done].
    eapply alc_passo; [exact Halc|].
    eapply passo_atribuir; [done| |exact Hnt|].
    + by rewrite Hl.
    + by rewrite Hl.
Qed.

Lemma drenar_alcancavel st resps voo st' :
  alcancavel sched policy cfg start qualquer
    {| p_sim := st; p_fase := Drenando; em_voo := voo |} ->
  drenar start st resps = Ok st' ->
  alcancavel sched policy cfg start qualquer
    {| p_sim := st'; p_fase := Drenando; em_voo := voo |}.
Proof.
  revert st. induction resps as [|[resp now2] resps IH]; intros st Halc Hd; simpl in Hd.
  - by injection Hd as <-.
  - destruct (processar_resposta start st resp now2) as [st1|e] eqn:Hp; [|done].
    simpl in Hd. apply (IH st1); [|done].
    eapply alc_passo; [exact Halc|]. by eapply passo_resposta.
Qed.

Lemma ciclos_alcancavel obs st voo st' :
  (forall now, alcancavel sched policy cfg start qualquer
                 {| p_sim := st; p_fase := inicio_de_ciclo sched start st now;
                    em_voo := voo |}) ->
  ciclos sched policy (quantum cfg) start st obs = Some (Ok st') ->
  condicao_parada st' = true /\
  exists voo', alcancavel sched policy cfg start qualquer
                 {| p_sim := st'; p_fase := Drenando; em_voo := voo' |}.
Proof.
  revert st voo. induction obs as [|c obs IH]; intros st voo Halc Hrun; [done|].
  cbn [ciclos] in Hrun.
  destruct (atribuir_tarefas _ _ _ _ _ st _ _) as [[st1|e]|] eqn:Hatr; [|done..].
  destruct (atribuir_tarefas_alcancavel _ _ _ _ _ _ _ (Halc (c_now c)) Hatr) as [voo1 Halc1].
  destruct (drenar start st1 (c_resps c)) as [st2|e] eqn:Hd; [|done].
  pose proof (drenar_alcancavel _ _ _ _ Halc1 Hd) as Halc2.
  destruct (condicao_parada st2) eqn:Hstop.
  - injection Hrun as <-. split; [done|]. by exists voo1.
  - apply (IH st2 voo1); [|done]. intros now.
    eapply alc_passo; [exact Halc2|]. by apply passo_novo_ciclo.
Qed.
End Execucao.

(** A run that returns has emptied the pending list. *)
Lemma executar_politica_esvazia_pending sched policy cfg amb m st :
  (forall q, q ∈ requisicoes cfg -> (0 < tempo_exec q)%Q) ->
  executar_politica sched policy cfg amb = Some (Ok (m, st)) ->
  pending st = [].
Proof.
  intros Hpos. unfold executar_politica.
  destruct (ciclos _ _ _ _ _ _) as [[st1|e]|] eqn:Hc; [|done..].
  destruct (metricas _ _ _) as [m1|e]; [|done]. simpl. intros [= _ <-]. simpl.
  destruct (ciclos_alcancavel sched policy cfg (amb_start amb) _ _ [] _
              (alc_inicio sched policy cfg (amb_start amb) qualquer) Hc)
    as [Hstop [voo Halc]].
  apply parada_pending_vazio; [|done].
  by apply (alcancavel_pendentes_com_trabalho _ _ _ _ _ _ Hpos Halc).
Qed.

(** One task answered at 4 in a run of total time 4. *)
Example executar_politica_uma_tarefa :
  exists m st,
    executar_politica scheduler_rr "sjf" cfg_uma_tarefa amb_uma_tarefa = Some (Ok (m, st)) /\
    tempo_medio m = 4%Q /\ throughput m = (1 # 4)%Q /\ pending st = [] /\
    eventos st = [EvAtribuicao 0 1 1 1 "sjf"; EvConclusao 4 1 1 50 100].
Proof.
  eexists _, _. split; [vm_compute; reflexivity|]. repeat split.
Qed.

(** The scenario under round-robin: with both servers free at each
    dispatch, a task that comes back goes to the other server. *)
Example executar_politica_cenario_rr :
  exists m st,
    executar_politica scheduler_rr "rr" cfg_cenario amb_cenario_rr = Some (Ok (m, st)) /\
    eventos st = [EvAtribuicao 0 1 1 1 "rr"; EvPreempcao 2 1 1 3 50 100;
                  EvMigracao 2 1 1 1 2 "rr"; EvPreempcao 4 2 1 1 50 100;
                  EvMigracao 4 1 1 2 1 "rr"; EvConclusao 5 1 1 50 100] /\
    dict_get 1 (filas st)
      = Some [ITarefa {| m_id := 1; m_priority := 1; m_remaining := 5;
                         m_slice := Some 2%Q; m_exec_time := None |};
              ITarefa {| m_id := 1; m_priority := 1; m_remaining := 1;
                         m_slice := Some 1%Q; m_exec_time := None |};
              IExit].
Proof.
  eexists _, _. split; [vm_compute; reflexivity|]. split; reflexivity.
Qed.

(** * Further properties of the module *)

(** ** Labels of priorities *)

(** X1: [prioridade_label] gives the three priorities 1, 2 and 3 three
    different labels, none of them ["?"], and gives ["?"] to every other
    number. *)
Theorem prioridade_label_conhecidas (a b : Z) :
  (prioridade_label a = "?"%string <-> ~ (1 <= a <= 3)) /\
  (1 <= a <= 3 -> 1 <= b <= 3 -> prioridade_label a = prioridade_label b -> a = b).
Proof.
  split.
  - split.
    + intros Hq [H1 H3].
      assert (a = 1 \/ a = 2 \/ a = 3) as [-> | [-> | ->]] by lia; discriminate.
    + intros Hfora. unfold prioridade_label.
      destruct a as [|[[| |]|[| |]|]|]; try reflexivity; exfalso; apply Hfora; lia.
  - intros Ha Hb.
    assert (a = 1 \/ a = 2 \/ a = 3) as [-> | [-> | ->]] by lia;
      assert (b = 1 \/ b = 2 \/ b = 3) as [-> | [-> | ->]] by lia;
      simpl; intros H; try reflexivity; discriminate.
Qed.

(** ** The server dictionary at the start of a run *)

Lemma find_snoc {A} (f : A -> bool) (l : list A) (x : A) :
  List.find f (l ++ [x])
  = match List.find f l with
    | Some y => Some y
    | None => if f x then Some x else None
    end.
Proof.
  induction l as [|y l IH]; simpl; [done|]. destruct (f y); [done|]. exact IH.
Qed.

Lemma estados_desde_lookup ss (d : list (Z * Estado)) k :
  dict_get k (fold_left (fun d s => dict_set (s_id s)
                {| cap := capacidade s; load := 0; busy := 0%Q |} d) ss d)
  = match ultimo_com_id k ss with
    | Some sv => Some (estado_de sv)
    | None => dict_get k d
    end.
Proof.
  revert d. induction ss as [|sv ss IH]; intros d; [done|].
  cbn [fold_left]. rewrite IH. unfold ultimo_com_id. cbn [rev]. rewrite find_snoc.
  destruct (List.find _ (rev ss)) as [sv'|]; [done|].
  destruct (Z.eqb_spec (s_id sv) k) as [<-|Hne].
  - by rewrite dict_get_set_eq.
  - by rewrite dict_get_set_ne.
Qed.

Lemma estados_iniciais_NoDup ss : NoDup (dict_keys (estados_iniciais ss)).
Proof.
  unfold estados_iniciais.
  assert (Hgen : forall d : list (Z * Estado), NoDup (dict_keys d) ->
    NoDup (dict_keys (fold_left (fun d s => dict_set (s_id s)
             {| cap := capacidade s; load := 0; busy := 0%Q |} d) ss d))).
  { induction ss as [|sv ss IH]; intros d Hd; [done|].
    cbn [fold_left]. apply IH. by apply dict_keys_set_NoDup. }
  apply Hgen. apply NoDup_nil_2.
Qed.

Lemma estados_iniciais_lookup ss k :
  dict_get k (estados_iniciais ss) = estado_de <$> ultimo_com_id k ss.
Proof.
  unfold estados_iniciais. rewrite estados_desde_lookup.
  by destruct (ultimo_com_id k ss).
Qed.

(** X2: the dictionary [estados] built at line 40 has one entry per server
    identifier; a server configured more than once starts with the capacity
    of its last configuration entry, and every server starts with load 0
    and busy time 0; an identifier that is not configured has no entry. *)
Theorem estados_iniciais_ultimo ss k :
  NoDup (dict_keys (estados_iniciais ss)) /\
  dict_get k (estados_iniciais ss) = estado_de <$> ultimo_com_id k ss.
Proof.
  split; [apply estados_iniciais_NoDup|apply estados_iniciais_lookup].
Qed.

Example estados_iniciais_repetidos :
  estados_iniciais servidores_repetidos
  = [(1, {| cap := 3; load := 0; busy := 0 |}); (2, {| cap := 1; load := 0; busy := 0 |})].
Proof. reflexivity. Qed.

(** ** More on one assignment *)

(** X3: under ["rr"] with a positive quantum, the slice sent for an
    eligible task is positive, at most the quantum and at most the task's
    remaining work. *)
Theorem slice_limitado quantum elapsed st r livres sid msg st' t :
  (0 < quantum)%Q ->
  tarefas st !! r = Some t ->
  elegivel t = true ->
  atribuir "rr" quantum elapsed st r livres = Ok (sid, msg, st') ->
  exists sl, m_slice msg = Some sl /\
             (0 < sl)%Q /\ (sl <= quantum)%Q /\ (sl <= t_remaining t)%Q.
Proof.
  intros Hq Ht Hel H. apply atribuir_inv in H as (t0 & fila & s & Ht0 & _ & _ & _ & -> & _).
  rewrite Ht in Ht0. injection Ht0 as <-.
  assert (Hrem : (0 < t_remaining t)%Q).
  { unfold elegivel in Hel. apply andb_prop in Hel as [_ Hrem].
    apply Qnot_le_lt. intros Hle. apply Qle_bool_iff in Hle. by rewrite Hle in Hrem. }
  unfold construir_msg. simpl. eexists. split; [reflexivity|].
  unfold py_min. destruct (Qle_bool quantum (t_remaining t)) eqn:Hle.
  - apply Qle_bool_iff in Hle. split; [done|]. split; [apply Qle_refl|done].
  - assert (Hlt : (t_remaining t < quantum)%Q).
    { apply Qnot_le_lt. intros H. apply Qle_bool_iff in H. congruence. }
    split; [done|]. split; [by apply Qlt_le_weak|apply Qle_refl].
Qed.

Lemma slice_limitado_witness :
  let st := estado_inicial cfg_cenario 0 in
  (0 < 2)%Q /\
  exists sid msg st',
    atribuir "rr" 2 0 st 0 (livres_de (estados st)) = Ok (sid, msg, st') /\
    exists sl, m_slice msg = Some sl /\ (0 < sl)%Q /\ (sl <= 2)%Q /\ (sl <= 5)%Q.
Proof.
  intros st. split; [reflexivity|]. eexists _, _, _. split; [cbv; reflexivity|].
  eapply (slice_limitado 2 0 st 0 (livres_de (estados st)) _ _ _
            (nova_tarefa 0 (req 1 1 5))); [reflexivity..|cbv; reflexivity].
Defined.

(** X4: a task that comes back (its [last_worker] is set) is moved whenever
    it can be: if any free server other than [last_worker] exists, the
    chosen server differs from [last_worker] and the migration line is
    printed; if [last_worker] is the only free server, the task returns to
    it and the assignment line is printed. *)
Theorem migracao_sempre_que_possivel policy quantum elapsed st r livres sid msg st' t lw :
  tarefas st !! r = Some t ->
  last_worker t = Some lw ->
  atribuir policy quantum elapsed st r livres = Ok (sid, msg, st') ->
  ((exists x, x ∈ livres /\ x <> lw) ->
     sid <> lw /\
     eventos st' = eventos st ++
       [EvMigracao elapsed (t_id t) (t_prioridade t) lw sid policy]) /\
  ((forall x, x ∈ livres -> x = lw) ->
     sid = lw /\
     eventos st' = eventos st ++
       [EvAtribuicao elapsed (t_id t) (t_prioridade t) sid policy]).
Proof.
  intros Ht Hlw H. apply atribuir_inv in H as (t0 & fila & s & Ht0 & Hesc & _ & _ & _ & ->).
  rewrite Ht in Ht0. injection Ht0 as <-.
  pose proof (escolher_elem _ _ _ _ Hesc) as Hsid.
  cbn [eventos]. unfold evento_atribuicao. cbn [last_worker com_running t_id t_prioridade].
  rewrite Hlw. split.
  - intros (x & Hx & Hne).
    assert (Hdif : sid <> lw).
    { unfold escolher in Hesc. rewrite Hlw in Hesc.
      destruct (candidatos_de lw livres) as [|c cs] eqn:Hc.
      - exfalso. assert (Hxc : x ∈ candidatos_de lw livres) by by apply candidatos_de_elem.
        rewrite Hc in Hxc. by apply elem_of_nil in Hxc.
      - apply menos_carregado_inv, primeiro_minimo_elem in Hesc.
        rewrite <- Hc in Hesc. by apply candidatos_de_elem in Hesc as [_ ?]. }
    split; [done|]. destruct (Z.eqb_spec lw sid); [congruence|done].
  - intros Hall. assert (Heq : sid = lw) by by apply Hall.
    split; [done|]. destruct (Z.eqb_spec lw sid); [done|congruence].
Qed.

Lemma migracao_sempre_que_possivel_witness :
  exists sid msg st',
    atribuir "rr" 2 2 sim_retorno 0 (livres_de (estados sim_retorno)) = Ok (sid, msg, st') /\
    sid = 2 /\ eventos st' = [EvMigracao 2 1 1 1 2 "rr"].
Proof.
  eexists _, _, _. split; [cbv; reflexivity|].
  edestruct (migracao_sempre_que_possivel "rr" 2 2 sim_retorno 0
               (livres_de (estados sim_retorno))) as [Hmig _];
    [reflexivity|reflexivity|cbv; reflexivity|].
  destruct Hmig as [_ Hev].
  - exists 2. split; [|discriminate]. apply list_elem_of_In. simpl. auto.
  - split; [reflexivity|exact Hev].
Defined.

(** X5: an assignment opens the record of a task only when the task has
    none: a task dispatched before keeps its record as it is, a task
    dispatched for the first time gets a record with its arrival time and
    no end, and the records of all other ids are untouched. *)
Theorem atribuir_preserva_registro policy quantum elapsed st r livres sid msg st' t :
  tarefas st !! r = Some t ->
  atribuir policy quantum elapsed st r livres = Ok (sid, msg, st') ->
  dict_get (t_id t) (completed st')
    = Some (match dict_get (t_id t) (completed st) with
            | Some reg => reg
            | None => {| arrival := arrival_time t; r_end := None |}
            end) /\
  forall k, k <> t_id t -> dict_get k (completed st') = dict_get k (completed st).
Proof.
  intros Ht H. apply atribuir_inv in H as (t0 & fila & s & Ht0 & _ & _ & _ & _ & ->).
  rewrite Ht in Ht0. injection Ht0 as <-.
  cbn [completed]. unfold abrir_registro. cbn [t_id arrival_time com_running].
  destruct (dict_get (t_id t) (completed st)) as [reg|] eqn:Hreg.
  - split; [done|]. done.
  - split; [by rewrite dict_get_set_eq|]. intros k Hk. by rewrite dict_get_set_ne.
Qed.

Lemma atribuir_preserva_registro_witness :
  exists sid msg st',
    atribuir "rr" 2 2 sim_retorno 0 (livres_de (estados sim_retorno)) = Ok (sid, msg, st') /\
    dict_get 1 (completed st') = Some {| arrival := 0; r_end := None |}.
Proof.
  eexists _, _, _. split; [cbv; reflexivity|].
  edestruct (atribuir_preserva_registro "rr" 2 2 sim_retorno 0
               (livres_de (estados sim_retorno))) as [Hreg _];
    [reflexivity|cbv; reflexivity|exact Hreg].
Defined.

(** ** More on one response *)

(** X6: a response with remaining work 0 that is processed removes from the
    pending list every task that has its id, also one that was never
    dispatched, and keeps every pending task with another id. *)
Theorem resposta_final_remove_por_id start st resp now2 st' r t :
  Qeq_bool (r_remaining resp) 0 = true ->
  processar_resposta start st resp now2 = Ok st' ->
  r ∈ pending st ->
  tarefas st !! r = Some t ->
  r ∈ pending st' <-> t_id t <> r_id resp.
Proof.
  intros Hz H Hr Ht.
  apply processar_resposta_inv in H as (s & _ & Hts & _ & _ & Hcase).
  destruct Hcase as [[_ Hp]|[Hz' _]]; [|congruence].
  rewrite Hp, list_elem_of_In, filter_In, <- list_elem_of_In.
  rewrite Hts, tem_id_atualizar. unfold tem_id. rewrite Ht.
  destruct (Z.eqb_spec (t_id t) (r_id resp)); simpl; intuition congruence.
Qed.

Lemma resposta_final_remove_por_id_witness :
  exists st',
    processar_resposta 0 sim_ids_repetidos resposta_final 4 = Ok st' /\
    ~ (1%nat ∈ pending st') /\ 2%nat ∈ pending st'.
Proof.
  eexists. split; [cbv; reflexivity|]. split.
  - intros Hin.
    apply (resposta_final_remove_por_id 0 sim_ids_repetidos resposta_final 4 _ 1%nat
             (nova_tarefa 0 (req 1 2 7))) in Hin;
      [by apply Hin|reflexivity|cbv; reflexivity| |reflexivity].
    apply list_elem_of_In. simpl. auto.
  - apply (resposta_final_remove_por_id 0 sim_ids_repetidos resposta_final 4 _ 2%nat
             (nova_tarefa 0 (req 2 1 3)));
      [reflexivity|cbv; reflexivity| |reflexivity|discriminate].
    apply list_elem_of_In. simpl. auto.
Defined.

(** ** Draining responses *)

Lemma processar_resposta_forma start st resp now2 st' :
  processar_resposta start st resp now2 = Ok st' ->
  exists s,
    dict_get (worker resp) (estados st) = Some s /\
    tarefas st' = atualizar_tarefa (tarefas st) (pending st) resp /\
    estados st' = dict_set (worker resp)
                    (com_load (load s - 1) (com_busy (busy s + duration resp) s)) (estados st) /\
    filas st' = filas st /\
    exists ev, eventos st' = eventos st ++ [ev] /\ eh_despacho ev = false /\
    ((Qeq_bool (r_remaining resp) 0 = true /\
      exists reg, dict_get (r_id resp) (completed st) = Some reg /\
        completed st' = dict_set (r_id resp) {| arrival := arrival reg; r_end := Some now2 |}
                                 (completed st))
     \/ (Qeq_bool (r_remaining resp) 0 = false /\ completed st' = completed st)).
Proof.
  unfold processar_resposta. intros H.
  destruct (dict_get (worker resp) (estados st)) as [s|] eqn:Hs; simpl in H; [|done].
  exists s. split; [done|].
  destruct (Qeq_bool (r_remaining resp) 0) eqn:Hz.
  - destruct (dict_get (r_id resp) (completed st)) as [reg|] eqn:Hreg; simpl in H; [|done].
    injection H as <-. simpl. split; [done|]. split; [done|]. split; [done|].
    eexists. split; [done|]. split; [done|]. left. split; [done|]. by exists reg.
  - injection H as <-. simpl. split; [done|]. split; [done|]. split; [done|].
    eexists. split; [done|]. split; [done|]. by right.
Qed.

(** X7: a drain that goes through leaves each server with its capacity,
    with its load lowered by the number of drained responses of that
    worker, and with the durations of those responses added to its busy
    time one after the other, in the order in which they were drained
    (line 131). *)
Theorem drenar_contabiliza start st resps st' k s :
  drenar start st resps = Ok st' ->
  dict_get k (estados st) = Some s ->
  exists s',
    dict_get k (estados st') = Some s' /\
    cap s' = cap s /\
    load s' = load s - Z.of_nat (length (respostas_de k resps)) /\
    busy s' = fold_left Qplus (map duration (respostas_de k resps)) (busy s).
Proof.
  revert st s. induction resps as [|[resp now2] resps IH]; intros st s Hd Hs; simpl in Hd.
  - injection Hd as <-. exists s. split; [done|]. split; [done|]. split.
    + simpl. lia.
    + reflexivity.
  - destruct (processar_resposta start st resp now2) as [st1|e] eqn:Hp; simpl in Hd; [|done].
    apply processar_resposta_forma in Hp as (sw & Hsw & _ & Hest & _).
    unfold respostas_de. cbn [map fst List.filter].
    destruct (Z.eqb_spec (worker resp) k) as [Heq|Hne].
    + subst k. rewrite Hs in Hsw. injection Hsw as <-.
      destruct (IH st1 (com_load (load s - 1) (com_busy (busy s + duration resp) s)) Hd)
        as (s' & Hs' & Hcap & Hload & Hbusy).
      { rewrite Hest. apply dict_get_set_eq. }
      exists s'. split; [done|]. split; [done|]. split.
      * rewrite Hload. cbn [length load com_load]. unfold respostas_de. lia.
      * rewrite Hbusy. reflexivity.
    + destruct (IH st1 s Hd) as (s' & Hs' & Hcap & Hload & Hbusy).
      { rewrite Hest. by rewrite dict_get_set_ne. }
      by exists s'.
Qed.

Lemma drenar_contabiliza_witness :
  exists st' s',
    drenar 0 (estado_inicial cfg_cenario 0)
           [(resposta_desconhecida, 1%Q); (resposta_rr 2 2 3, 2%Q); (resposta_desconhecida, 3%Q)]
      = Ok st' /\
    dict_get 1 (estados st') = Some s' /\ load s' = -2 /\ busy s' = ((0 + 1) + 1)%Q.
Proof.
  assert (Hd : exists st',
    drenar 0 (estado_inicial cfg_cenario 0)
           [(resposta_desconhecida, 1%Q); (resposta_rr 2 2 3, 2%Q); (resposta_desconhecida, 3%Q)]
      = Ok st') by (eexists; cbv; reflexivity).
  destruct Hd as [st' Hd].
  destruct (drenar_contabiliza 0 _ _ st' 1 {| cap := 1; load := 0; busy := 0 |} Hd eq_refl)
    as (s' & Hs' & _ & Hload & Hbusy).
  exists st', s'. split; [exact Hd|]. split; [exact Hs'|]. split; [exact Hload|exact Hbusy].
Defined.

Lemma processar_resposta_chaves start st resp now2 st' :
  processar_resposta start st resp now2 = Ok st' ->
  dict_keys (estados st') = dict_keys (estados st).
Proof.
  intros H. apply processar_resposta_forma in H as (s & Hs & _ & -> & _).
  apply dict_keys_set_present. by eexists.
Qed.

(** X8: a drain goes through only if every response comes from a worker
    that has an entry in [estados]; a response from any other worker makes
    the drain raise. *)
Theorem drenar_workers_conhecidos start st resps st' resp now2 :
  drenar start st resps = Ok st' ->
  (resp, now2) ∈ resps ->
  worker resp ∈ dict_keys (estados st).
Proof.
  revert st. induction resps as [|[resp0 now0] resps IH]; intros st Hd Hin; simpl in Hd.
  - by apply elem_of_nil in Hin.
  - destruct (processar_resposta start st resp0 now0) as [st1|e] eqn:Hp; simpl in Hd; [|done].
    apply elem_of_cons in Hin as [[= -> ->]|Hin].
    + apply processar_resposta_forma in Hp as (s & Hs & _).
      apply dict_get_keys. by eexists.
    + rewrite <- (processar_resposta_chaves _ _ _ _ _ Hp). by apply IH.
Qed.

Lemma drenar_workers_conhecidos_witness :
  exists st',
    drenar 0 (estado_inicial cfg_cenario 0) [(resposta_desconhecida, 1%Q)] = Ok st' /\
    worker resposta_desconhecida ∈ dict_keys (estados (estado_inicial cfg_cenario 0)).
Proof.
  assert (Hd : exists st',
    drenar 0 (estado_inicial cfg_cenario 0) [(resposta_desconhecida, 1%Q)] = Ok st')
    by (eexists; cbv; reflexivity).
  destruct Hd as [st' Hd]. exists st'. split; [exact Hd|].
  apply (drenar_workers_conhecidos 0 _ _ st' resposta_desconhecida 1%Q Hd). by left.
Defined.

Example drenar_worker_desconhecido :
  drenar 0 (estado_inicial cfg_cenario 0) [(resposta_rr 7 2 3, 2%Q)] = Erro KeyError.
Proof. reflexivity. Qed.

(** ** Invariants of the state along a run *)

Lemma alcancavel_sim_inv (P : Sim -> Prop) sched policy cfg start amb :
  P (estado_inicial cfg start) ->
  (forall elapsed st r sid msg st', P st ->
     atribuir policy (quantum cfg) elapsed st r (livres_de (estados st)) = Ok (sid, msg, st') ->
     P st') ->
  (forall st resp now2 st', P st ->
     processar_resposta start st resp now2 = Ok st' -> P st') ->
  forall p, alcancavel sched policy cfg start amb p -> P (p_sim p).
Proof.
  intros Hini Hatr Hresp p Halc. induction Halc as [now|p p' _ IH Hpasso]; [done|].
  destruct Hpasso; simpl in *; try done.
  - by eapply Hatr.
  - by eapply Hresp.
Qed.

Lemma atualizar_tarefa_length ts pend resp :
  length (atualizar_tarefa ts pend resp) = length ts.
Proof.
  unfold atualizar_tarefa.
  destruct (primeira_com_id ts pend (r_id resp)) as [r0|]; [|done].
  destruct (ts !! r0); [|done]. by rewrite length_insert.
Qed.

Lemma atualizar_tarefa_campos ts pend resp r t :
  ts !! r = Some t ->
  exists t', atualizar_tarefa ts pend resp !! r = Some t' /\
    t_id t' = t_id t /\ t_prioridade t' = t_prioridade t /\
    t_tempo_exec t' = t_tempo_exec t /\ arrival_time t' = arrival_time t /\
    last_worker t' = last_worker t.
Proof.
  intros Ht. destruct (atualizar_tarefa_lookup_fwd ts pend resp r t Ht) as [t' Ht'].
  exists t'. split; [done|].
  destruct (atualizar_tarefa_lookup _ _ _ _ _ Ht') as (t0 & Ht0 & Hupd).
  rewrite Ht in Ht0. injection Ht0 as <-.
  by destruct Hupd as [[_ ->]|[_ ->]].
Qed.

Lemma tarefas_conforme_inicial cfg start : tarefas_conforme cfg start (estado_inicial cfg start).
Proof.
  split; simpl; [by rewrite length_map|].
  intros r q Hq. exists (nova_tarefa start q). by rewrite lookup_map, Hq.
Qed.

Lemma tarefas_conforme_atribuir cfg start policy quantum elapsed st r livres sid msg st' :
  atribuir policy quantum elapsed st r livres = Ok (sid, msg, st') ->
  tarefas_conforme cfg start st -> tarefas_conforme cfg start st'.
Proof.
  intros H [Hlen Hinv]. apply atribuir_inv in H as (t & fila & s & Ht & _ & _ & _ & _ & ->).
  split; simpl; [by rewrite length_insert|].
  intros r0 q Hq. destruct (Hinv r0 q Hq) as (t0 & Ht0 & Hcampos).
  destruct (decide (r0 = r)) as [->|Hne].
  - rewrite list_lookup_insert_eq by by eapply lookup_lt_Some.
    eexists. split; [done|]. rewrite Ht in Ht0. injection Ht0 as <-. done.
  - rewrite list_lookup_insert_ne by done. by exists t0.
Qed.

Lemma tarefas_conforme_resposta cfg start st resp now2 st' :
  processar_resposta start st resp now2 = Ok st' ->
  tarefas_conforme cfg start st -> tarefas_conforme cfg start st'.
Proof.
  intros H [Hlen Hinv]. apply processar_resposta_forma in H as (s & _ & Hts & _).
  split; rewrite Hts; [by rewrite atualizar_tarefa_length|].
  intros r q Hq. destruct (Hinv r q Hq) as (t & Ht & H1 & H2 & H3 & H4).
  destruct (atualizar_tarefa_campos _ (pending st) resp _ _ Ht)
    as (t' & Ht' & E1 & E2 & E3 & E4 & _).
  exists t'. split; [done|]. by rewrite E1, E2, E3, E4.
Qed.

Lemma tarefas_conforme_alcancavel sched policy cfg start amb p :
  alcancavel sched policy cfg start amb p -> tarefas_conforme cfg start (p_sim p).
Proof.
  apply (alcancavel_sim_inv (tarefas_conforme cfg start)).
  - apply tarefas_conforme_inicial.
  - intros. by eapply tarefas_conforme_atribuir.
  - intros. by eapply tarefas_conforme_resposta.
Qed.

(** X9: along a run the store keeps one task per configured request, in
    the configured order, and no step changes a task's id, priority or
    total execution time, nor its arrival time, which is the start of the
    run for every task. *)
Theorem tarefas_campos_fixos sched policy cfg start amb p r q :
  alcancavel sched policy cfg start amb p ->
  requisicoes cfg !! r = Some q ->
  length (tarefas (p_sim p)) = length (requisicoes cfg) /\
  exists t, tarefas (p_sim p) !! r = Some t /\
    t_id t = q_id q /\ t_prioridade t = q_prioridade q /\
    t_tempo_exec t = tempo_exec q /\ arrival_time t = start.
Proof.
  intros Halc Hq. destruct (tarefas_conforme_alcancavel _ _ _ _ _ _ Halc) as [Hlen Hinv].
  split; [done|]. by apply Hinv.
Qed.

Lemma tarefas_conforme_arrival cfg start st r t :
  tarefas_conforme cfg start st -> tarefas st !! r = Some t -> arrival_time t = start.
Proof.
  intros [Hlen Hinv] Ht.
  destruct (lookup_lt_is_Some_2 (requisicoes cfg) r) as [q Hq].
  { rewrite <- Hlen. by eapply lookup_lt_Some. }
  destruct (Hinv r q Hq) as (t0 & Ht0 & _ & _ & _ & Harr). congruence.
Qed.

Lemma registros_conforme_atribuir cfg start policy quantum elapsed st r livres sid msg st' :
  atribuir policy quantum elapsed st r livres = Ok (sid, msg, st') ->
  tarefas_conforme cfg start st ->
  registros_conforme start st -> registros_conforme start st'.
Proof.
  intros H Hconf Hinv. apply atribuir_inv in H as (t & fila & s & Ht & _ & _ & _ & _ & ->).
  set (t2 := com_last_worker sid (com_running true t)).
  intros k reg. simpl. unfold abrir_registro. cbn [t_id com_running arrival_time].
  assert (Hold : dict_get k (completed st) = Some reg ->
    arrival reg = start /\ exists r0 t0, <[r := t2]> (tarefas st) !! r0 = Some t0 /\ t_id t0 = k).
  { intros Hreg. destruct (Hinv k reg Hreg) as (Harr & r0 & t0 & Ht0 & Hid). split; [done|].
    destruct (insert_preserva_id _ _ _ t2 _ _ Ht eq_refl Ht0) as (t0' & Ht0' & Hid').
    exists r0, t0'. split; [done|]. congruence. }
  destruct (dict_get (t_id t) (completed st)) as [reg0|] eqn:Hreg0; [exact Hold|].
  destruct (decide (t_id t = k)) as [<-|Hne].
  - rewrite dict_get_set_eq. intros [= <-]. simpl. split.
    + by eapply tarefas_conforme_arrival.
    + exists r, t2. split; [|done]. apply list_lookup_insert_eq. by eapply lookup_lt_Some.
  - rewrite dict_get_set_ne by done. exact Hold.
Qed.

Lemma registros_conforme_resposta start st resp now2 st' :
  processar_resposta start st resp now2 = Ok st' ->
  registros_conforme start st -> registros_conforme start st'.
Proof.
  intros H Hinv.
  apply processar_resposta_forma in H as (s & _ & Hts & _ & _ & ev & _ & _ & Hcase).
  assert (Hold : forall k reg, dict_get k (completed st) = Some reg ->
    arrival reg = start /\ exists r0 t0, tarefas st' !! r0 = Some t0 /\ t_id t0 = k).
  { intros k reg Hreg. destruct (Hinv k reg Hreg) as (Harr & r0 & t0 & Ht0 & Hid).
    split; [done|]. rewrite Hts.
    destruct (atualizar_tarefa_campos _ (pending st) resp _ _ Ht0) as (t' & Ht' & E1 & _).
    exists r0, t'. split; [done|]. congruence. }
  intros k reg. destruct Hcase as [(_ & reg0 & Hreg0 & ->)|[_ ->]]; [|apply Hold].
  destruct (decide (r_id resp = k)) as [<-|Hne].
  - rewrite dict_get_set_eq. intros [= <-]. simpl. apply (Hold _ _ Hreg0).
  - rewrite dict_get_set_ne by done. apply Hold.
Qed.

(** X10: along a run every completion record carries the start of the run
    as its arrival and is the record of a task of the store: no record is
    ever created for an id that no request has. *)
Theorem registros_de_tarefas sched policy cfg start amb p k reg :
  alcancavel sched policy cfg start amb p ->
  dict_get k (completed (p_sim p)) = Some reg ->
  arrival reg = start /\
  exists q, q ∈ requisicoes cfg /\ q_id q = k.
Proof.
  intros Halc Hreg.
  assert (Hinv : tarefas_conforme cfg start (p_sim p) /\ registros_conforme start (p_sim p)).
  { clear Hreg. revert p Halc.
    apply (alcancavel_sim_inv
             (fun st => tarefas_conforme cfg start st /\ registros_conforme start st)).
    - split; [apply tarefas_conforme_inicial|]. by intros k0 reg0.
    - intros el st r sid msg st' [Hc Hr] Hatr. split.
      + by eapply tarefas_conforme_atribuir.
      + by eapply registros_conforme_atribuir.
    - intros st resp now2 st' [Hc Hr] Hp. split.
      + by eapply tarefas_conforme_resposta.
      + by eapply registros_conforme_resposta. }
  destruct Hinv as [[Hlen Hconf] Hregs].
  destruct (Hregs k reg Hreg) as (Harr & r & t & Ht & Hid). split; [done|].
  destruct (lookup_lt_is_Some_2 (requisicoes cfg) r) as [q Hq].
  { rewrite <- Hlen. by eapply lookup_lt_Some. }
  exists q. split; [by eapply list_elem_of_lookup_2|].
  destruct (Hconf r q Hq) as (t0 & Ht0 & Hid0 & _). congruence.
Qed.

Lemma ponto_cenario_1_alcancavel amb :
  alcancavel scheduler_rr "rr" cfg_cenario 0 amb ponto_cenario_1.
Proof.
  eapply alc_passo; [apply (alc_inicio _ _ _ _ _ 0%Q)|].
  unfold ponto_cenario_1.
  eapply passo_atribuir; [discriminate|discriminate|reflexivity|cbv; reflexivity].
Qed.

Lemma tarefas_campos_fixos_witness :
  exists t, tarefas (p_sim ponto_cenario_1) !! 0%nat = Some t /\
    t_id t = 1 /\ t_prioridade t = 1 /\ t_tempo_exec t = 5%Q /\ arrival_time t = 0%Q.
Proof.
  exact (proj2 (tarefas_campos_fixos scheduler_rr "rr" cfg_cenario 0 qualquer ponto_cenario_1
                  0%nat (req 1 1 5) (ponto_cenario_1_alcancavel qualquer) eq_refl)).
Defined.

Lemma registros_de_tarefas_witness :
  dict_get 1 (completed (p_sim ponto_cenario_1)) = Some {| arrival := 0; r_end := None |} /\
  exists q, q ∈ requisicoes cfg_cenario /\ q_id q = 1.
Proof.
  split; [reflexivity|].
  exact (proj2 (registros_de_tarefas scheduler_rr "rr" cfg_cenario 0 qualquer ponto_cenario_1
                  1 {| arrival := 0; r_end := None |}
                  (ponto_cenario_1_alcancavel qualquer) eq_refl)).
Defined.

(** ** The queues *)

Lemma dict_keys_set_congr {V W} (d1 : list (Z * V)) (d2 : list (Z * W)) k v w :
  dict_keys d1 = dict_keys d2 ->
  dict_keys (dict_set k v d1) = dict_keys (dict_set k w d2).
Proof.
  unfold dict_keys. revert d2.
  induction d1 as [|[k1 v1] d1 IH]; intros [|[k2 v2] d2]; simpl; try done.
  intros [= <- Hrest]. destruct (Z.eqb k k1); simpl; [by rewrite Hrest|].
  f_equal. by apply IH.
Qed.

Lemma filas_iniciais_chaves ss :
  dict_keys (filas_iniciais ss) = dict_keys (estados_iniciais ss).
Proof.
  unfold filas_iniciais, estados_iniciais.
  assert (Hgen : forall (d1 : list (Z * list Item)) (d2 : list (Z * Estado)),
    dict_keys d1 = dict_keys d2 ->
    dict_keys (fold_left (fun d s => dict_set (s_id s) [] d) ss d1)
    = dict_keys (fold_left (fun d s => dict_set (s_id s)
                   {| cap := capacidade s; load := 0; busy := 0%Q |} d) ss d2)).
  { induction ss as [|sv ss IH]; intros d1 d2 Hd; [done|].
    cbn [fold_left]. apply IH. by apply dict_keys_set_congr. }
  by apply Hgen.
Qed.

Lemma filas_iniciais_vazias ss k q : dict_get k (filas_iniciais ss) = Some q -> q = [].
Proof.
  unfold filas_iniciais.
  assert (Hgen : forall d : list (Z * list Item),
    (forall q, dict_get k d = Some q -> q = []) ->
    forall q, dict_get k (fold_left (fun d s => dict_set (s_id s) [] d) ss d) = Some q -> q = []).
  { induction ss as [|sv ss IH]; intros d Hd; [done|].
    cbn [fold_left]. apply IH. intros q0.
    destruct (decide (s_id sv = k)) as [<-|Hne].
    - rewrite dict_get_set_eq. by intros [= <-].
    - rewrite dict_get_set_ne by done. apply Hd. }
  apply Hgen. by intros q0.
Qed.

Lemma filas_conforme_inicial cfg start : filas_conforme cfg (estado_inicial cfg start).
Proof.
  split; [done|]. split; [apply filas_iniciais_chaves|].
  simpl. intros k q Hq. apply filas_iniciais_vazias in Hq as ->. by exists [].
Qed.

Lemma filas_conforme_atribuir cfg policy quantum elapsed st r livres sid msg st' :
  atribuir policy quantum elapsed st r livres = Ok (sid, msg, st') ->
  filas_conforme cfg st -> filas_conforme cfg st'.
Proof.
  intros H (He & Hf & Hq).
  apply atribuir_inv in H as (t & fila & s & _ & _ & Hfila & Hs & _ & ->).
  unfold filas_conforme. cbn [estados filas].
  split; [|split].
  - rewrite dict_keys_set_present; [done|by eexists].
  - rewrite dict_keys_set_present; [done|by eexists].
  - intros k q. destruct (decide (sid = k)) as [<-|Hne].
    + rewrite dict_get_set_eq. intros [= <-].
      destruct (Hq sid fila Hfila) as [msgs ->].
      exists (msgs ++ [msg]). unfold enviar_tarefa. rewrite map_app. reflexivity.
    + rewrite dict_get_set_ne by done. apply Hq.
Qed.

Lemma filas_conforme_resposta cfg start st resp now2 st' :
  processar_resposta start st resp now2 = Ok st' ->
  filas_conforme cfg st -> filas_conforme cfg st'.
Proof.
  intros H (He & Hf & Hq).
  apply processar_resposta_forma in H as (s & Hs & _ & Hest & Hfilas & _).
  unfold filas_conforme. rewrite Hfilas, Hest. split; [|by split].
  rewrite dict_keys_set_present; [done|by eexists].
Qed.

Lemma filas_conforme_alcancavel sched policy cfg start amb p :
  alcancavel sched policy cfg start amb p -> filas_conforme cfg (p_sim p).
Proof.
  apply (alcancavel_sim_inv (filas_conforme cfg)).
  - apply filas_conforme_inicial.
  - intros. by eapply filas_conforme_atribuir.
  - intros. by eapply filas_conforme_resposta.
Qed.

Lemma escolher_Ok est t livres :
  livres <> [] ->
  (forall x, x ∈ livres -> is_Some (dict_get x est)) ->
  exists sid, escolher est t livres = Ok sid.
Proof.
  intros Hne Hall. unfold escolher.
  assert (Hl : exists sid, menos_carregado est livres = Ok sid).
  { destruct (menos_carregado_primeiro est livres Hne Hall) as (sid & ? & _). by exists sid. }
  destruct (last_worker t) as [lw|]; [|done].
  destruct (candidatos_de lw livres) as [|c cs] eqn:Hc; [done|].
  destruct (menos_carregado_primeiro est (c :: cs)) as (sid & ? & _); [done| |by exists sid].
  intros x Hx. rewrite <- Hc in Hx. apply candidatos_de_elem in Hx as [Hx _]. by apply Hall.
Qed.

Lemma atribuir_Ok policy quantum elapsed st r t :
  tarefas st !! r = Some t ->
  livres_de (estados st) <> [] ->
  dict_keys (filas st) = dict_keys (estados st) ->
  exists sid msg st',
    atribuir policy quantum elapsed st r (livres_de (estados st)) = Ok (sid, msg, st').
Proof.
  intros Ht Hlivres Hkeys.
  destruct (escolher_Ok (estados st) t _ Hlivres) as [sid Hsid]; [apply livres_de_chave|].
  pose proof (escolher_elem _ _ _ _ Hsid) as Hin.
  destruct (livres_de_chave _ _ Hin) as [s Hs].
  assert (Hfila : is_Some (dict_get sid (filas st))).
  { apply dict_get_keys. rewrite Hkeys. apply dict_get_keys. by eexists. }
  destruct Hfila as [fila Hfila].
  unfold atribuir. rewrite Ht. cbn [exigir ligar]. rewrite Hsid. cbn [ligar].
  rewrite Hfila. cbn [exigir ligar]. rewrite Hs. cbn [exigir ligar]. by eexists _, _, _.
Qed.

(** X11: at every point a run can reach, whatever the responses, the body
    of the assignment loop raises nothing for a task of the store when a
    free server exists: [min] has a candidate, and the chosen server has a
    queue and a state. *)
Theorem atribuir_nao_levanta sched policy cfg start amb p elapsed r t :
  alcancavel sched policy cfg start amb p ->
  tarefas (p_sim p) !! r = Some t ->
  livres_de (estados (p_sim p)) <> [] ->
  exists sid msg st',
    atribuir policy (quantum cfg) elapsed (p_sim p) r (livres_de (estados (p_sim p)))
    = Ok (sid, msg, st').
Proof.
  intros Halc Ht Hlivres.
  destruct (filas_conforme_alcancavel _ _ _ _ _ _ Halc) as (He & Hf & _).
  apply (atribuir_Ok policy (quantum cfg) elapsed (p_sim p) r t Ht Hlivres).
  by rewrite He, Hf.
Qed.

Lemma atribuir_nao_levanta_witness :
  livres_de (estados (p_sim ponto_cenario_1)) <> [] /\
  exists sid msg st',
    atribuir "rr" 2 7 (p_sim ponto_cenario_1) 0 (livres_de (estados (p_sim ponto_cenario_1)))
    = Ok (sid, msg, st').
Proof.
  assert (Hl : livres_de (estados (p_sim ponto_cenario_1)) <> []) by discriminate.
  split; [exact Hl|].
  exact (atribuir_nao_levanta scheduler_rr "rr" cfg_cenario 0 qualquer ponto_cenario_1 7 0%nat _
           (ponto_cenario_1_alcancavel qualquer) eq_refl Hl).
Defined.

Lemma encerrar_lookup fs k :
  dict_get k (encerrar fs) = (fun q => q ++ [IExit]) <$> dict_get k fs.
Proof.
  induction fs as [|[k0 q0] fs IH]; simpl; [done|]. by destruct (Z.eqb k k0).
Qed.

Lemma ultimo_com_id_Some ss sv : sv ∈ ss -> is_Some (ultimo_com_id (s_id sv) ss).
Proof.
  intros Hin. unfold ultimo_com_id.
  destruct (List.find _ (rev ss)) as [sv'|] eqn:Hf; [by eexists|].
  exfalso. pose proof (find_none _ _ Hf sv) as Hno. simpl in Hno.
  rewrite Z.eqb_refl in Hno. apply diff_true_false, Hno.
  apply in_rev. rewrite rev_involutive. by apply list_elem_of_In.
Qed.

(** X12: when a run returns, every configured server has a queue, and every
    queue holds the dispatch messages sent to it followed by exactly one
    ["EXIT"], its last item. *)
Theorem executar_politica_encerra_filas sched policy cfg amb m st :
  executar_politica sched policy cfg amb = Some (Ok (m, st)) ->
  (forall sv, sv ∈ servidores cfg -> is_Some (dict_get (s_id sv) (filas st))) /\
  (forall k q, dict_get k (filas st) = Some q ->
     exists msgs, q = map ITarefa msgs ++ [IExit]).
Proof.
  unfold executar_politica.
  destruct (ciclos _ _ _ _ _ _) as [[st1|e]|] eqn:Hc; [|done..].
  destruct (metricas _ _ _) as [m1|e]; [|done]. simpl. intros [= _ <-]. simpl.
  destruct (ciclos_alcancavel sched policy cfg (amb_start amb) _ _ [] _
              (alc_inicio sched policy cfg (amb_start amb) qualquer) Hc)
    as [_ [voo Halc]].
  destruct (filas_conforme_alcancavel _ _ _ _ _ _ Halc) as (_ & Hf & Hq). simpl in *.
  split.
  - intros sv Hsv. rewrite encerrar_lookup.
    assert (Hk : is_Some (dict_get (s_id sv) (filas st1))).
    { apply dict_get_keys. rewrite Hf. apply dict_get_keys.
      rewrite estados_iniciais_lookup.
      destruct (ultimo_com_id_Some _ _ Hsv) as [sv' ->]. by eexists. }
    destruct Hk as [q ->]. by eexists.
  - intros k q. rewrite encerrar_lookup.
    destruct (dict_get k (filas st1)) as [q1|] eqn:Hq1; [|done].
    intros [= <-]. destruct (Hq k q1 Hq1) as [msgs ->]. by exists msgs.
Qed.

Lemma executar_politica_encerra_filas_witness :
  exists m st,
    executar_politica scheduler_rr "rr" cfg_cenario amb_cenario_rr = Some (Ok (m, st)) /\
    forall sv, sv ∈ servidores cfg_cenario -> is_Some (dict_get (s_id sv) (filas st)).
Proof.
  assert (H : exists m st,
    executar_politica scheduler_rr "rr" cfg_cenario amb_cenario_rr = Some (Ok (m, st)))
    by (eexists _, _; vm_compute; reflexivity).
  destruct H as (m & st & H). exists m, st. split; [exact H|].
  exact (proj1 (executar_politica_encerra_filas _ _ _ _ _ _ H)).
Defined.

(** ** Bounds that need no assumption on the responses *)

Lemma carga_limitada_atribuir policy quantum elapsed st r sid msg st' :
  atribuir policy quantum elapsed st r (livres_de (estados st)) = Ok (sid, msg, st') ->
  carga_limitada st -> carga_limitada st'.
Proof.
  intros H [Hnd Hinv]. apply atribuir_inv in H as (t & fila & s & _ & Hesc & _ & Hs & _ & ->).
  unfold carga_limitada. cbn [estados]. split; [by apply dict_keys_set_NoDup|].
  intros k sk. destruct (decide (sid = k)) as [<-|Hne].
  - rewrite dict_get_set_eq. intros [= <-]. simpl.
    apply escolher_elem in Hesc. pose proof (livres_de_vaga _ _ _ Hnd Hesc Hs). lia.
  - rewrite dict_get_set_ne by done. apply Hinv.
Qed.

Lemma carga_limitada_resposta start st resp now2 st' :
  processar_resposta start st resp now2 = Ok st' ->
  carga_limitada st -> carga_limitada st'.
Proof.
  intros H [Hnd Hinv]. apply processar_resposta_forma in H as (s & Hs & _ & Hest & _).
  unfold carga_limitada. rewrite Hest. split; [by apply dict_keys_set_NoDup|].
  intros k sk. destruct (decide (worker resp = k)) as [<-|Hne].
  - rewrite dict_get_set_eq. intros [= <-]. simpl. specialize (Hinv _ _ Hs). lia.
  - rewrite dict_get_set_ne by done. apply Hinv.
Qed.

(** X13: when the configured capacities are not negative, no server is ever
    loaded beyond its capacity, whatever responses arrive, also responses
    that answer no dispatch. *)
Theorem carga_nunca_excede sched policy cfg start amb p k s :
  (forall sv, sv ∈ servidores cfg -> 0 <= capacidade sv) ->
  alcancavel sched policy cfg start amb p ->
  dict_get k (estados (p_sim p)) = Some s ->
  load s <= cap s.
Proof.
  intros Hcap Halc.
  assert (Hinv : carga_limitada (p_sim p)).
  { revert p Halc. apply (alcancavel_sim_inv carga_limitada).
    - destruct (estados_iniciais_inv _ Hcap) as [Hnd Hest]. split; [done|].
      simpl. intros k0 s0 Hs0. destruct (Hest k0 s0 Hs0) as [-> ?]. done.
    - intros. by eapply carga_limitada_atribuir.
    - intros. by eapply carga_limitada_resposta. }
  intros Hs. by apply (proj2 Hinv k s).
Qed.

Lemma carga_nunca_excede_witness :
  (forall sv, sv ∈ servidores cfg_cenario -> 0 <= capacidade sv) /\
  forall k s, dict_get k (estados (p_sim ponto_cenario_1)) = Some s -> load s <= cap s.
Proof.
  assert (Hcap : forall sv, sv ∈ servidores cfg_cenario -> 0 <= capacidade sv).
  { intros sv Hsv. simpl in Hsv.
    apply elem_of_cons in Hsv as [->|Hsv]; [simpl; lia|].
    apply list_elem_of_singleton in Hsv as ->. simpl. lia. }
  split; [exact Hcap|]. intros k s.
  exact (carga_nunca_excede scheduler_rr "rr" cfg_cenario 0 qualquer ponto_cenario_1 k s Hcap
           (ponto_cenario_1_alcancavel qualquer)).
Defined.

Lemma sublist_filter_bool {A} (f : A -> bool) (l : list A) : List.filter f l `sublist_of` l.
Proof.
  induction l as [|x l IH]; simpl; [done|].
  destruct (f x); [by apply sublist_skip|by apply sublist_cons].
Qed.

(** X14: the pending list only ever loses tasks: at every point of a run it
    is a sublist of the initial list of all tasks, so no task is added, put
    back or reordered. *)
Theorem pending_so_diminui sched policy cfg start amb p :
  alcancavel sched policy cfg start amb p ->
  pending (p_sim p) `sublist_of` seq 0 (length (requisicoes cfg)).
Proof.
  revert p.
  apply (alcancavel_sim_inv (fun st => pending st `sublist_of` seq 0 (length (requisicoes cfg)))).
  - done.
  - intros el st r sid msg st' Hst H.
    apply atribuir_inv in H as (t & fila & s & _ & _ & _ & _ & _ & ->). done.
  - intros st resp now2 st' Hst H.
    apply processar_resposta_inv in H as (s & _ & _ & _ & _ & [[_ ->]|[_ [-> _]]]); [|done].
    etrans; [apply sublist_filter_bool|done].
Qed.

Lemma pending_so_diminui_witness :
  pending (p_sim ponto_cenario_1) `sublist_of` seq 0 (length (requisicoes cfg_cenario)).
Proof.
  exact (pending_so_diminui scheduler_rr "rr" cfg_cenario 0 qualquer ponto_cenario_1
           (ponto_cenario_1_alcancavel qualquer)).
Defined.

(** ** Messages and printed lines *)

Lemma total_enviado_set fs k q x :
  dict_get k fs = Some q ->
  total_enviado (dict_set k (q ++ [x]) fs) = S (total_enviado fs).
Proof.
  induction fs as [|[k0 q0] fs IH]; simpl; [done|].
  destruct (Z.eqb k k0); simpl.
  - intros [= ->]. rewrite length_app. simpl. lia.
  - intros H. rewrite (IH H). lia.
Qed.

Lemma total_enviado_inicial ss : total_enviado (filas_iniciais ss) = 0%nat.
Proof.
  unfold filas_iniciais.
  assert (Hset : forall (d : list (Z * list Item)) k,
    total_enviado d = 0%nat -> total_enviado (dict_set k [] d) = 0%nat).
  { induction d as [|[k0 q0] d IH]; intros k; simpl; [done|].
    destruct (Z.eqb k k0); simpl; [lia|]. intros H. rewrite IH; lia. }
  assert (Hgen : forall d : list (Z * list Item), total_enviado d = 0%nat ->
    total_enviado (fold_left (fun d s => dict_set (s_id s) [] d) ss d) = 0%nat).
  { induction ss as [|sv ss IH]; intros d Hd; [done|]. cbn [fold_left]. by apply IH, Hset. }
  by apply Hgen.
Qed.

Lemma evento_atribuicao_despacho policy elapsed t sid :
  eh_despacho (evento_atribuicao policy elapsed t sid) = true.
Proof.
  unfold evento_atribuicao. destruct (last_worker t) as [lw|]; [|done].
  by destruct (negb (lw =? sid)).
Qed.

(** X15: along a run the number of items put on the queues equals the
    number of assignment and migration lines printed: every dispatch is
    announced by exactly one line, and no line is printed without a
    dispatch. *)
Theorem despachos_e_linhas sched policy cfg start amb p :
  alcancavel sched policy cfg start amb p ->
  total_enviado (filas (p_sim p)) = length (List.filter eh_despacho (eventos (p_sim p))).
Proof.
  revert p.
  apply (alcancavel_sim_inv
           (fun st => total_enviado (filas st) = length (List.filter eh_despacho (eventos st)))).
  - simpl. apply total_enviado_inicial.
  - intros el st r sid msg st' Hst H.
    apply atribuir_inv in H as (t & fila & s & _ & _ & Hfila & _ & _ & ->).
    cbn [filas eventos]. unfold enviar_tarefa.
    rewrite (total_enviado_set _ _ _ _ Hfila), List.filter_app, length_app, Hst.
    cbn [List.filter]. rewrite evento_atribuicao_despacho. simpl. lia.
  - intros st resp now2 st' Hst H.
    apply processar_resposta_forma in H as (s & _ & _ & _ & -> & ev & -> & Hev & _).
    rewrite List.filter_app, length_app, Hst. cbn [List.filter]. rewrite Hev. simpl. lia.
Qed.

Lemma despachos_e_linhas_witness :
  total_enviado (filas (p_sim ponto_cenario_1)) = 1%nat.
Proof.
  exact (despachos_e_linhas scheduler_rr "rr" cfg_cenario 0 qualquer ponto_cenario_1
           (ponto_cenario_1_alcancavel qualquer)).
Defined.

(** ** Termination of the assignment loop *)

(** X16: at every point a run can reach, the assignment loop ends after at
    most as many iterations as the servers have free slots, whatever the
    scheduler hands out, also a scheduler that never shortens the list. *)
Theorem atribuir_tarefas_limitado sched policy cfg start amb p sched' elapsed eleg :
  alcancavel sched policy cfg start amb p ->
  exists res,
    atribuir_tarefas sched' policy (quantum cfg) (vagas (estados (p_sim p))) elapsed
                     (p_sim p) eleg (livres_de (estados (p_sim p)))
    = Some res.
Proof.
  intros Halc. apply atribuir_tarefas_termina; [|done].
  destruct (filas_conforme_alcancavel _ _ _ _ _ _ Halc) as (-> & _).
  apply estados_iniciais_NoDup.
Qed.

Lemma atribuir_tarefas_limitado_witness :
  exists res,
    atribuir_tarefas {| reorder := fun _ l => l; next_task := fun _ l => Ok (0%nat, l) |}
      "rr" 2 (vagas (estados (p_sim ponto_cenario_1))) 0
      (p_sim ponto_cenario_1) [0%nat] (livres_de (estados (p_sim ponto_cenario_1)))
    = Some res.
Proof.
  exact (atribuir_tarefas_limitado scheduler_rr "rr" cfg_cenario 0 qualquer ponto_cenario_1
           {| reorder := fun _ l => l; next_task := fun _ l => Ok (0%nat, l) |} 0 [0%nat]
           (ponto_cenario_1_alcancavel qualquer)).
Defined.

(** ** Runs that cannot return *)

Lemma tem_trabalho_nao_para st : tem_trabalho st -> condicao_parada st = false.
Proof.
  intros (r & t & Hr & Ht & Hrem). unfold condicao_parada.
  destruct (forallb (terminada (tarefas st)) (pending st)) eqn:Hf; [|done].
  exfalso. apply Hrem.
  pose proof (proj1 (forallb_forall _ _) Hf r (proj1 (list_elem_of_In _ _) Hr)) as Hterm.
  unfold terminada in Hterm. rewrite Ht in Hterm. by apply Qeq_bool_iff.
Qed.

Lemma tem_trabalho_atribuir policy quantum elapsed st r livres sid msg st' :
  atribuir policy quantum elapsed st r livres = Ok (sid, msg, st') ->
  tem_trabalho st -> tem_trabalho st'.
Proof.
  intros H (r0 & t0 & Hr0 & Ht0 & Hrem).
  apply atribuir_inv in H as (t & fila & s & Ht & _ & _ & _ & _ & ->).
  exists r0. cbn [pending tarefas]. destruct (decide (r0 = r)) as [->|Hne].
  - eexists. split; [done|]. split.
    + apply list_lookup_insert_eq. by eapply lookup_lt_Some.
    + simpl. congruence.
  - exists t0. by rewrite list_lookup_insert_ne.
Qed.

Lemma tem_trabalho_atribuir_tarefas sched policy quantum fuel elapsed st eleg livres st' :
  atribuir_tarefas sched policy quantum fuel elapsed st eleg livres = Some (Ok st') ->
  tem_trabalho st -> tem_trabalho st'.
Proof.
  revert st eleg livres. induction fuel as [|fuel IH]; intros st eleg livres H Hst.
  - destruct eleg as [|r0 eleg]; [by injection H as <-|].
    destruct livres as [|l0 livres]; [by injection H as <-|done].
  - destruct eleg as [|r0 eleg]; [by injection H as <-|].
    destruct livres as [|l0 livres]; [by injection H as <-|].
    cbn [atribuir_tarefas] in H.
    destruct (next_task sched (tarefas st) (r0 :: eleg)) as [[r eleg']|e]; [|done].
    destruct (atribuir policy quantum elapsed st r (l0 :: livres))
      as [[[sid msg] st1]|e] eqn:Hatr; [|done].
    eapply IH; [exact H|]. by eapply tem_trabalho_atribuir.
Qed.

Lemma ciclos_sem_respostas sched policy quantum start obs st st' :
  (forall c, c ∈ obs -> c_resps c = []) ->
  tem_trabalho st ->
  ciclos sched policy quantum start st obs <> Some (Ok st').
Proof.
  revert st. induction obs as [|c obs IH]; intros st Hresps Hst; [done|].
  cbn [ciclos].
  destruct (atribuir_tarefas _ _ _ _ _ st _ _) as [[st1|e]|] eqn:Hatr; [|done..].
  rewrite (Hresps c) by by left. cbn [drenar].
  pose proof (tem_trabalho_atribuir_tarefas _ _ _ _ _ _ _ _ _ Hatr Hst) as Hst1.
  rewrite (tem_trabalho_nao_para _ Hst1). apply IH; [|done].
  intros c' Hc'. apply Hresps. by right.
Qed.

(** X17: the loop has no timeout: if some request has an execution time
    other than 0 and no response is ever found in the return queue, the
    run returns no result, however many cycles it goes through. *)
Theorem sem_respostas_nao_retorna sched policy cfg amb q res :
  q ∈ requisicoes cfg ->
  ~ (tempo_exec q == 0)%Q ->
  (forall c, c ∈ amb_ciclos amb -> c_resps c = []) ->
  executar_politica sched policy cfg amb <> Some (Ok res).
Proof.
  intros Hq Hexec Hresps. unfold executar_politica.
  destruct (ciclos _ _ _ _ _ _) as [[st|e]|] eqn:Hc; [|done..].
  exfalso. revert Hc. apply ciclos_sem_respostas; [done|].
  apply list_elem_of_lookup_1 in Hq as [i Hi].
  exists i, (nova_tarefa (amb_start amb) q). simpl. split; [|split].
  - apply elem_of_seq. apply lookup_lt_Some in Hi. lia.
  - by rewrite lookup_map, Hi.
  - done.
Qed.

Lemma sem_respostas_nao_retorna_witness :
  req 1 1 5 ∈ requisicoes cfg_cenario /\
  ~ (tempo_exec (req 1 1 5) == 0)%Q /\
  executar_politica scheduler_rr "rr" cfg_cenario amb_sem_respostas = None.
Proof.
  assert (Hq : req 1 1 5 ∈ requisicoes cfg_cenario) by by left.
  assert (Hne : ~ (tempo_exec (req 1 1 5) == 0)%Q) by discriminate.
  split; [exact Hq|]. split; [exact Hne|].
  assert (Hresps : forall c, c ∈ amb_ciclos amb_sem_respostas -> c_resps c = []).
  { intros c Hc. simpl in Hc.
    repeat (apply elem_of_cons in Hc as [->|Hc]; [reflexivity|]).
    by apply elem_of_nil in Hc. }
  destruct (executar_politica scheduler_rr "rr" cfg_cenario amb_sem_respostas)
    as [[res|e]|] eqn:He; [|discriminate|reflexivity].
  destruct (sem_respostas_nao_retorna scheduler_rr "rr" cfg_cenario amb_sem_respostas
              (req 1 1 5) res Hq Hne Hresps He).
Defined.

Lemma filter_nenhum {A} (f : A -> bool) (l : list A) :
  (forall x, x ∈ l -> f x = false) -> List.filter f l = [].
Proof.
  induction l as [|x l IH]; intros Hall; simpl; [done|].
  rewrite (Hall x) by by left. apply IH. intros y Hy. apply Hall. by right.
Qed.

(** X18: when every request has execution time 0, no task is eligible
    when the run starts; if moreover the scheduler leaves an empty list
    empty and the first cycle finds no response waiting, nothing is
    dispatched, the stop condition holds in that first cycle with no
    record at all, and the run raises the division by zero of the mean
    response time. *)
Theorem executar_politica_tempo_zero sched policy cfg amb c obs :
  (forall q, q ∈ requisicoes cfg -> (tempo_exec q == 0)%Q) ->
  (forall ts, reorder sched ts [] = []) ->
  amb_ciclos amb = c :: obs ->
  c_resps c = [] ->
  elegiveis_de (estado_inicial cfg (amb_start amb)) = [] /\
  executar_politica sched policy cfg amb = Some (Erro ZeroDivisionError).
Proof.
  intros Hzero Hre Hobs Hresps.
  set (st := estado_inicial cfg (amb_start amb)).
  assert (Htask : forall r, r ∈ pending st ->
    exists q, q ∈ requisicoes cfg /\ tarefas st !! r = Some (nova_tarefa (amb_start amb) q)).
  { intros r Hr. simpl in Hr. apply elem_of_seq in Hr.
    destruct (lookup_lt_is_Some_2 (requisicoes cfg) r) as [q Hq]; [lia|].
    exists q. split; [by eapply list_elem_of_lookup_2|]. simpl. by rewrite lookup_map, Hq. }
  assert (Hel : elegiveis_de st = []).
  { unfold elegiveis_de. apply filter_nenhum. intros r Hr.
    destruct (Htask r Hr) as (q & Hq & Ht). unfold ref_elegivel. rewrite Ht.
    unfold elegivel. simpl.
    assert (Hle : Qle_bool (tempo_exec q) 0 = true).
    { apply Qle_bool_iff. rewrite (Hzero q Hq). apply Qle_refl. }
    by rewrite Hle. }
  assert (Hstop : condicao_parada st = true).
  { unfold condicao_parada. apply forallb_forall. intros r Hr.
    apply list_elem_of_In in Hr. destruct (Htask r Hr) as (q & Hq & Ht).
    unfold terminada. rewrite Ht. simpl. apply Qeq_bool_iff. by apply Hzero. }
  split; [exact Hel|].
  unfold executar_politica. rewrite Hobs. cbn [ciclos]. fold st.
  rewrite Hel, Hre.
  assert (Hatr : forall fuel el livres,
    atribuir_tarefas sched policy (quantum cfg) fuel el st [] livres = Some (Ok st))
    by (by intros [|fuel]).
  rewrite Hatr, Hresps. cbn [drenar]. rewrite Hstop.
  by rewrite metricas_sem_registros.
Qed.

Lemma executar_politica_tempo_zero_witness :
  (forall q, q ∈ requisicoes cfg_tempo_zero -> (tempo_exec q == 0)%Q) /\
  executar_politica scheduler_rr "sjf" cfg_tempo_zero amb_um_ciclo
  = Some (Erro ZeroDivisionError).
Proof.
  assert (Hzero : forall q, q ∈ requisicoes cfg_tempo_zero -> (tempo_exec q == 0)%Q).
  { intros q Hq. simpl in Hq.
    apply elem_of_cons in Hq as [->|Hq]; [reflexivity|].
    apply list_elem_of_singleton in Hq as ->. reflexivity. }
  split; [exact Hzero|].
  exact (proj2 (executar_politica_tempo_zero scheduler_rr "sjf" cfg_tempo_zero amb_um_ciclo
                  {| c_now := 0; c_resps := [] |} [] Hzero (fun _ => eq_refl) eq_refl eq_refl)).
Defined.

(** ** The three runs of [main] *)

Lemma executar_politica_vazia_levanta sched policy cfg amb :
  requisicoes cfg = [] ->
  amb_ciclos amb <> [] ->
  exists e, executar_politica sched policy cfg amb = Some (Erro e).
Proof.
  intros Hreq Hobs. unfold executar_politica.
  destruct (amb_ciclos amb) as [|c obs]; [done|].
  assert (Hts : tarefas (estado_inicial cfg (amb_start amb)) = []).
  { unfold estado_inicial. cbn [tarefas]. by rewrite Hreq. }
  assert (Hp : pending (estado_inicial cfg (amb_start amb)) = []).
  { unfold estado_inicial. cbn [pending]. by rewrite Hreq. }
  destruct (ciclos_sem_tarefas sched policy (quantum cfg) (amb_start amb) _ c obs Hts Hp eq_refl)
    as [[e ->] | (st2 & -> & Hc2)]; [by eexists|].
  rewrite Hc2, metricas_sem_registros. by eexists.
Qed.

(** X19: [main] runs the policies in the order "rr", "sjf", "prioridade"
    and stops at the first run that raises; with an empty request list the
    first run already raises, so [main] ends in that error and the other
    two policies are never run (their observations do not matter). *)
Theorem main_sem_requisicoes mk cfg amb_de amb_de' :
  requisicoes cfg = [] ->
  amb_ciclos (amb_de "rr"%string) <> [] ->
  amb_de' "rr"%string = amb_de "rr"%string ->
  exists e, main mk cfg amb_de = Some (Erro e) /\ main mk cfg amb_de' = Some (Erro e).
Proof.
  intros Hreq Hobs Hsame. unfold main, politicas. cbn [executar_todas]. rewrite Hsame.
  destruct (executar_politica_vazia_levanta (mk "rr"%string) "rr" cfg (amb_de "rr"%string)
              Hreq Hobs) as [e ->].
  by exists e.
Qed.

Lemma main_sem_requisicoes_witness :
  requisicoes cfg_sem_requisicoes = [] /\
  exists e, main (fun _ => scheduler_rr) cfg_sem_requisicoes (fun _ => amb_um_ciclo)
            = Some (Erro e).
Proof.
  split; [reflexivity|].
  destruct (main_sem_requisicoes (fun _ => scheduler_rr) cfg_sem_requisicoes
              (fun _ => amb_um_ciclo) (fun _ => amb_um_ciclo) eq_refl) as (e & He & _);
    [discriminate|reflexivity|].
  by exists e.
Defined.

(** ** An assignment phase that raises nothing *)

Lemma atribuir_tarefas_Ok sched policy quantum elapsed fuel st eleg :
  contrato sched -> sem_falha sched ->
  NoDup (dict_keys (estados st)) ->
  dict_keys (filas st) = dict_keys (estados st) ->
  (forall r, r ∈ eleg -> is_Some (tarefas st !! r)) ->
  (vagas (estados st) <= fuel)%nat ->
  exists st',
    atribuir_tarefas sched policy quantum fuel elapsed st eleg (livres_de (estados st))
    = Some (Ok st').
Proof.
  intros [_ Hnext] Hsem. revert st eleg.
  induction fuel as [|fuel IH]; intros st eleg Hnd Hkeys Hrefs Hfuel.
  - destruct eleg as [|r0 eleg]; [by eexists|].
    destruct (livres_de (estados st)) as [|l0 livres] eqn:Hl; [by eexists|].
    exfalso. apply (vagas_livres (estados st)); [by rewrite Hl|lia].
  - destruct eleg as [|r0 eleg]; [by eexists|].
    destruct (livres_de (estados st)) as [|l0 livres] eqn:Hl; [by eexists|].
    cbn [atribuir_tarefas].
    destruct (Hsem (tarefas st) (r0 :: eleg)) as (r & eleg' & Hnt); [done|].
    rewrite Hnt. pose proof (Hnext _ _ _ _ Hnt) as Hperm.
    destruct (Hrefs r) as [t Ht]; [rewrite Hperm; by left|].
    destruct (atribuir_Ok policy quantum elapsed st r t Ht) as (sid & msg & st' & Hatr);
      [by rewrite Hl|done|].
    rewrite Hl in Hatr. rewrite Hatr. rewrite <- Hl in Hatr.
    apply atribuir_inv in Hatr as (t0 & fila & s & _ & Hesc & Hfila & Hs & _ & ->).
    cbn [estados]. apply IH; cbn [estados filas tarefas].
    + by apply dict_keys_set_NoDup.
    + rewrite !dict_keys_set_present; [done|by eexists|by eexists].
    + intros r' Hr'. apply lookup_lt_is_Some. rewrite length_insert.
      apply lookup_lt_is_Some, Hrefs. rewrite Hperm. by right.
    + apply escolher_elem in Hesc.
      pose proof (livres_de_vaga _ _ _ Hnd Hesc Hs) as Hlt.
      rewrite (vagas_set (estados st) sid s (com_load (load s + 1) s)) in Hfuel by done.
      lia.
Qed.

(** X20: with a scheduler that keeps its contract and whose [next_task]
    raises nothing on a list that is not empty, the whole assignment phase
    of a cycle, started at any point a run can reach, ends without raising
    anything, whatever the responses were. *)
Theorem fase_de_atribuicao_nao_levanta sched policy cfg start amb p elapsed :
  contrato sched -> sem_falha sched ->
  alcancavel sched policy cfg start amb p ->
  exists st',
    atribuir_tarefas sched policy (quantum cfg) (vagas (estados (p_sim p))) elapsed (p_sim p)
      (reorder sched (tarefas (p_sim p)) (elegiveis_de (p_sim p)))
      (livres_de (estados (p_sim p)))
    = Some (Ok st').
Proof.
  intros Hc Hsem Halc.
  destruct (filas_conforme_alcancavel _ _ _ _ _ _ Halc) as (He & Hf & _).
  apply atribuir_tarefas_Ok; try done.
  - rewrite He. apply estados_iniciais_NoDup.
  - by rewrite He, Hf.
  - intros r Hr. rewrite (proj1 Hc) in Hr. unfold elegiveis_de in Hr.
    apply list_elem_of_In, filter_In in Hr as [_ Hel].
    apply ref_elegivel_Some in Hel as (t & Ht & _). by eexists.
Qed.

Lemma sem_falha_rr : sem_falha scheduler_rr.
Proof. intros ts [|r l] Hl; [done|]. by exists r, l. Qed.

Lemma fase_de_atribuicao_nao_levanta_witness :
  contrato scheduler_rr /\ sem_falha scheduler_rr /\
  exists st',
    atribuir_tarefas scheduler_rr "rr" 2 (vagas (estados (p_sim ponto_cenario_1))) 3
      (p_sim ponto_cenario_1)
      (reorder scheduler_rr (tarefas (p_sim ponto_cenario_1)) (elegiveis_de (p_sim ponto_cenario_1)))
      (livres_de (estados (p_sim ponto_cenario_1)))
    = Some (Ok st').
Proof.
  split; [exact contrato_rr|]. split; [exact sem_falha_rr|].
  exact (fase_de_atribuicao_nao_levanta scheduler_rr "rr" cfg_cenario 0 qualquer
           ponto_cenario_1 3 contrato_rr sem_falha_rr (ponto_cenario_1_alcancavel qualquer)).
Defined.

(** ** Servers without capacity *)

Lemma livres_sem_capacidade ss :
  (forall sv, sv ∈ ss -> capacidade sv <= 0) -> livres_de (estados_iniciais ss) = [].
Proof.
  intros Hcap. unfold livres_de. rewrite filter_nenhum; [done|].
  intros [k s] Hin.
  pose proof (dict_elem_get _ _ _ (estados_iniciais_NoDup ss) Hin) as Hget.
  rewrite estados_iniciais_lookup in Hget.
  unfold ultimo_com_id in Hget.
  destruct (List.find _ (rev ss)) as [sv|] eqn:Hf; [|done].
  injection Hget as <-. apply find_some in Hf as [Hsv _].
  apply in_rev, list_elem_of_In in Hsv. specialize (Hcap sv Hsv).
  unfold tem_vaga. simpl. lia.
Qed.

(** X21: when no configured server has a positive capacity and every
    response answers an outstanding dispatch, nothing ever happens: no task
    is dispatched and the state stays the initial one at every point of the
    run. *)
Theorem nada_sem_capacidade sched policy cfg start p :
  (forall sv, sv ∈ servidores cfg -> capacidade sv <= 0) ->
  alcancavel sched policy cfg start responde p ->
  p_sim p = estado_inicial cfg start /\ em_voo p = [].
Proof.
  intros Hcap Halc. induction Halc as [now|p p' _ IH Hpasso]; [done|].
  destruct IH as [Hsim Hvoo].
  destruct Hpasso as [st elapsed eleg voo r eleg' sid msg st' _ Hl _ _
                     |st elapsed eleg voo _
                     |st voo resp now2 voo' st' Hamb _
                     |st voo now _]; simpl in *; try done.
  - exfalso. apply Hl. rewrite Hsim. simpl. by apply livres_sem_capacidade.
  - exfalso. subst voo. inversion Hamb as [ant m dep resp' Hm Hant].
    by destruct ant.
Qed.

Lemma nada_sem_capacidade_witness :
  (forall sv, sv ∈ servidores cfg_sem_capacidade -> capacidade sv <= 0) /\
  forall p, alcancavel scheduler_rr "rr" cfg_sem_capacidade 0 responde p ->
            filas (p_sim p) = [(1, []); (2, [])].
Proof.
  assert (Hcap : forall sv, sv ∈ servidores cfg_sem_capacidade -> capacidade sv <= 0).
  { intros sv Hsv. simpl in Hsv.
    apply elem_of_cons in Hsv as [->|Hsv]; [simpl; lia|].
    apply list_elem_of_singleton in Hsv as ->. simpl. lia. }
  split; [exact Hcap|]. intros p Halc.
  destruct (nada_sem_capacidade scheduler_rr "rr" cfg_sem_capacidade 0 p Hcap Halc) as [-> _].
  reflexivity.
Defined.

(** ** A run whose loop ends returns its metrics *)

Lemma dict_set_nao_vazio {V} k (v : V) d : dict_set k v d <> [].
Proof. destruct d as [|[k0 v0] d]; simpl; [done|]. by destruct (Z.eqb k k0). Qed.

Lemma abrir_registro_nao_vazio t comp : abrir_registro t comp <> [].
Proof.
  unfold abrir_registro. destruct (dict_get (t_id t) comp) eqn:Hget.
  - by destruct comp.
  - apply dict_set_nao_vazio.
Qed.

Lemma abrir_registro_NoDup t comp :
  NoDup (dict_keys comp) -> NoDup (dict_keys (abrir_registro t comp)).
Proof.
  intros Hnd. unfold abrir_registro. destruct (dict_get (t_id t) comp); [done|].
  by apply dict_keys_set_NoDup.
Qed.

Lemma inv_saida_inicio sched cfg start st voo now :
  contrato sched ->
  NoDup (dict_keys (completed st)) ->
  registros_abertos_pendentes st ->
  (completed st = [] -> pending st = seq 0 (length (requisicoes cfg))) ->
  (completed st <> [] -> estados st <> []) ->
  inv_saida cfg {| p_sim := st; p_fase := inicio_de_ciclo sched start st now; em_voo := voo |}.
Proof.
  intros [Hre _] H1 H2 H3 H4. split; try done. simpl.
  intros r Hr. rewrite Hre in Hr. unfold elegiveis_de in Hr.
  apply list_elem_of_In, filter_In in Hr as [Hr _]. by apply list_elem_of_In.
Qed.

Lemma inv_saida_atribuir sched policy cfg quantum st elapsed eleg voo r eleg' sid msg st' voo' :
  contrato sched ->
  next_task sched (tarefas st) eleg = Ok (r, eleg') ->
  atribuir policy quantum elapsed st r (livres_de (estados st)) = Ok (sid, msg, st') ->
  inv_saida cfg {| p_sim := st; p_fase := Atribuindo elapsed eleg; em_voo := voo |} ->
  inv_saida cfg {| p_sim := st'; p_fase := Atribuindo elapsed eleg'; em_voo := voo' |}.
Proof.
  intros [_ Hnext] Hnt Hatr [Hnd Hab Hvz Hest Hfase]; simpl in *.
  specialize (Hnext _ _ _ _ Hnt).
  assert (Hr : r ∈ pending st) by (apply Hfase; rewrite Hnext; by left).
  apply atribuir_inv in Hatr as (t & fila & s & Ht & _ & _ & _ & _ & ->).
  set (t2 := com_last_worker sid (com_running true t)).
  assert (Hold : forall k,
    (exists r0 t0, r0 ∈ pending st /\ tarefas st !! r0 = Some t0 /\ t_id t0 = k) ->
    exists r0 t0, r0 ∈ pending st /\ <[r := t2]> (tarefas st) !! r0 = Some t0 /\ t_id t0 = k).
  { intros k (r0 & t0 & Hr0 & Ht0 & Hid).
    destruct (insert_preserva_id _ _ _ t2 _ _ Ht eq_refl Ht0) as (t0' & Ht0' & Hid').
    exists r0, t0'. split; [done|]. split; [done|]. congruence. }
  split; unfold registros_abertos_pendentes;
    cbn [p_sim p_fase completed pending tarefas estados].
  - by apply abrir_registro_NoDup.
  - intros k reg. unfold abrir_registro. cbn [t_id com_running arrival_time].
    destruct (dict_get (t_id t) (completed st)) as [reg0|] eqn:Hreg0.
    + intros Hk Hopen. apply Hold. by eapply Hab.
    + destruct (decide (t_id t = k)) as [<-|Hne].
      * intros _ _. exists r, t2. split; [done|]. split; [|done].
        apply list_lookup_insert_eq. by eapply lookup_lt_Some.
      * rewrite dict_get_set_ne by done. intros Hk Hopen. apply Hold. by eapply Hab.
  - intros Hvazio. by apply abrir_registro_nao_vazio in Hvazio.
  - intros _. apply dict_set_nao_vazio.
  - intros r' Hr'. apply Hfase. rewrite Hnext. by right.
Qed.

Lemma inv_saida_resposta cfg start st voo resp now2 voo' st' :
  processar_resposta start st resp now2 = Ok st' ->
  inv_saida cfg {| p_sim := st; p_fase := Drenando; em_voo := voo |} ->
  inv_saida cfg {| p_sim := st'; p_fase := Drenando; em_voo := voo' |}.
Proof.
  intros Hproc [Hnd Hab Hvz Hest _]; simpl in *.
  pose proof (processar_resposta_inv _ _ _ _ _ Hproc) as (s0 & _ & _ & _ & _ & Hpend).
  apply processar_resposta_forma in Hproc
    as (s & _ & Hts & Hestados & _ & ev & _ & _ & Hcomp).
  assert (Hold : forall k, k <> r_id resp \/ pending st' = pending st ->
    (exists r0 t0, r0 ∈ pending st /\ tarefas st !! r0 = Some t0 /\ t_id t0 = k) ->
    exists r0 t0, r0 ∈ pending st' /\ tarefas st' !! r0 = Some t0 /\ t_id t0 = k).
  { intros k Hk (r0 & t0 & Hr0 & Ht0 & Hid). rewrite Hts.
    destruct (atualizar_tarefa_campos _ (pending st) resp _ _ Ht0) as (t' & Ht' & E1 & _).
    exists r0, t'. split; [|split; [done|congruence]].
    destruct Hk as [Hk | ->]; [|done].
    destruct Hpend as [[_ ->]|[_ [-> _]]]; [|done].
    apply list_elem_of_In, filter_In. split; [by apply list_elem_of_In|].
    rewrite Hts. unfold tem_id. rewrite Ht', E1, Hid.
    by destruct (Z.eqb_spec k (r_id resp)). }
  split; simpl; [| | | |done].
  - destruct Hcomp as [(_ & reg0 & _ & ->)|[_ ->]]; [|done]. by apply dict_keys_set_NoDup.
  - intros k reg. destruct Hcomp as [(Hz & reg0 & Hreg0 & ->)|[Hz ->]].
    + destruct (decide (r_id resp = k)) as [<-|Hne].
      * rewrite dict_get_set_eq. by intros [= <-].
      * rewrite dict_get_set_ne by done. intros Hk Hopen.
        apply Hold; [left; congruence|]. by eapply Hab.
    + intros Hk Hopen. apply Hold; [|by eapply Hab].
      right. destruct Hpend as [[? _]|[_ [? _]]]; [congruence|done].
  - destruct Hcomp as [(_ & reg0 & _ & ->)|[Hz ->]].
    + intros Hvazio. by apply dict_set_nao_vazio in Hvazio.
    + intros Hvazio. destruct Hpend as [[? _]|[_ [-> _]]]; [congruence|]. by apply Hvz.
  - intros _. rewrite Hestados. apply dict_set_nao_vazio.
Qed.

Lemma inv_saida_alcancavel sched policy cfg start amb p :
  contrato sched ->
  alcancavel sched policy cfg start amb p -> inv_saida cfg p.
Proof.
  intros Hc Halc. induction Halc as [now|p p' _ IH Hpasso].
  - apply inv_saida_inicio; first [done | apply NoDup_nil_2 | by intros k reg].
  - destruct Hpasso as [st elapsed eleg voo r eleg' sid msg st' _ _ Hnt Hatr
                       |st elapsed eleg voo _
                       |st voo resp now2 voo' st' _ Hproc
                       |st voo now _].
    + by eapply inv_saida_atribuir.
    + destruct IH. by split.
    + by eapply inv_saida_resposta.
    + destruct IH. by apply inv_saida_inicio.
Qed.

Lemma metricas_Ok comp est total :
  comp <> [] -> est <> [] -> ~ (total == 0)%Q ->
  (forall p, p ∈ comp -> is_Some (r_end (snd p))) ->
  exists m, metricas comp est total = Ok m.
Proof.
  intros Hcomp Hest Htotal Hclosed. unfold metricas.
  rewrite (para_cada_map _ tempo_resposta).
  2:{ intros c Hc. unfold dict_values in Hc.
      apply list_elem_of_In, in_map_iff in Hc as (p & <- & Hp).
      apply list_elem_of_In in Hp. destruct (Hclosed p Hp) as [e He].
      unfold tempo_resposta. rewrite He. reflexivity. }
  cbn [ligar]. unfold dict_values. rewrite !py_len_map.
  rewrite dividir_nao_zero by by apply py_len_nao_zero. cbn [ligar].
  rewrite dividir_nao_zero by done. cbn [ligar].
  rewrite (para_cada_map _ (ocupacao total)).
  2:{ intros s _. by rewrite dividir_nao_zero. }
  cbn [ligar]. rewrite dividir_nao_zero by by apply py_len_nao_zero. cbn [ligar].
  by eexists.
Qed.

(** X22: with a scheduler that keeps its contract, at least one request,
    strictly positive execution times and a total time other than 0, a run
    whose loop ends returns a result: every record is closed by then, at
    least one record and one server exist, so the metrics raise nothing;
    and the pending list is empty. *)
Theorem executar_politica_retorna sched policy cfg amb st :
  contrato sched ->
  requisicoes cfg <> [] ->
  (forall q, q ∈ requisicoes cfg -> (0 < tempo_exec q)%Q) ->
  ~ (amb_fim amb - amb_start amb == 0)%Q ->
  ciclos sched policy (quantum cfg) (amb_start amb) (estado_inicial cfg (amb_start amb))
         (amb_ciclos amb) = Some (Ok st) ->
  exists m st',
    executar_politica sched policy cfg amb = Some (Ok (m, st')) /\
    pending st' = [] /\
    (forall k reg, dict_get k (completed st') = Some reg -> is_Some (r_end reg)).
Proof.
  intros Hc Hreq Hpos Htotal Hciclos.
  destruct (ciclos_alcancavel sched policy cfg (amb_start amb) _ _ [] _
              (alc_inicio sched policy cfg (amb_start amb) qualquer) Hciclos)
    as [Hstop [voo Halc]].
  pose proof (alcancavel_pendentes_com_trabalho _ _ _ _ _ _ Hpos Halc) as Htrab.
  pose proof (parada_pending_vazio _ Htrab Hstop) as Hpend. simpl in Hpend.
  destruct (inv_saida_alcancavel _ _ _ _ _ _ Hc Halc) as [Hnd Hab Hvz Hest _]. simpl in *.
  assert (Hfechados : forall k reg, dict_get k (completed st) = Some reg -> is_Some (r_end reg)).
  { intros k reg Hreg. destruct (r_end reg) as [e|] eqn:Hend; [by eexists|].
    destruct (Hab k reg Hreg Hend) as (r & t & Hr & _). rewrite Hpend in Hr.
    by apply elem_of_nil in Hr. }
  assert (Hcomp : completed st <> []).
  { intros Hvazio. specialize (Hvz Hvazio). rewrite Hpend in Hvz.
    destruct (requisicoes cfg); [done|]. done. }
  destruct (metricas_Ok (completed st) (estados st) (amb_fim amb - amb_start amb)%Q)
    as [m Hm]; [done|by apply Hest|done| |].
  { intros [k reg] Hin. simpl. apply (Hfechados k). by apply dict_elem_get. }
  unfold executar_politica. rewrite Hciclos, Hm. cbn [ligar].
  eexists _, _. split; [reflexivity|]. by split.
Qed.

Lemma executar_politica_retorna_witness :
  contrato scheduler_rr /\
  (forall q, q ∈ requisicoes cfg_uma_tarefa -> (0 < tempo_exec q)%Q) /\
  exists m st',
    executar_politica scheduler_rr "sjf" cfg_uma_tarefa amb_uma_tarefa = Some (Ok (m, st')) /\
    pending st' = [].
Proof.
  assert (Hpos : forall q, q ∈ requisicoes cfg_uma_tarefa -> (0 < tempo_exec q)%Q).
  { intros q Hq. apply list_elem_of_singleton in Hq as ->. reflexivity. }
  split; [exact contrato_rr|]. split; [exact Hpos|].
  assert (Hc : exists st,
    ciclos scheduler_rr "sjf" (quantum cfg_uma_tarefa) (amb_start amb_uma_tarefa)
      (estado_inicial cfg_uma_tarefa (amb_start amb_uma_tarefa)) (amb_ciclos amb_uma_tarefa)
    = Some (Ok st)) by (eexists; vm_compute; reflexivity).
  destruct Hc as [st Hc].
  destruct (executar_politica_retorna scheduler_rr "sjf" cfg_uma_tarefa amb_uma_tarefa st
              contrato_rr) as (m & st' & He & Hp & _);
    [discriminate|exact Hpos|discriminate|exact Hc|].
  by exists m, st'.
Defined.
